(** * kqfm: a kqueue file monitor

    Shallow embedding of [kqfm.c] and the properties of its specification.

    The program reads newline-delimited paths from its control stream,
    arms a vnode watch for each of them on a kqueue, and prints one line
    per change event.  The embedding follows the C source function by
    function and keeps its names.

    Modelling conventions.
    - [int] is a 32-bit two's complement integer, [size_t] a 64-bit unsigned
      one, [intptr_t] a 64-bit signed one (LP64, as on the BSDs and macOS);
      conversions are written out ([int_of], [size_t_of], [int_of_u_int]).
    - C strings are [string]s without NUL; the bytes of a stream are a
      [string] too.
    - The process state is one record, [world], threaded through every
      function; [err(3)] ends the run with [Exited].
    - The operating system is a parameter: the constants of <sys/event.h>,
      <errno.h> and <fcntl.h> ([SysHeaders]) and the outcome of the system
      calls ([OS]).
    - [malloc] and [realloc] are taken to succeed: the heap of path entries
      is a list indexed by address and an allocation extends it.
    - The loop is driven by a list of [wakeup]s, one per turn: what
      happens between the clearing of [signal_caught] (line 196) and its
      test (line 201).  There the diagnostic trigger (SIGUSR1) decides what
      the turn does: it interrupts the blocking [kevent] call
      ([Interrupted]), or its handler runs before the call is entered or
      after it has returned an event ([Caught]), and the event the call
      returns in such a turn is discarded by line 201.  A trigger delivered after the
      test and before the next clearing runs [dump_paths] too, but the flag
      it raises is cleared by line 196 before it is read: it does not change
      what the loop does, and is left out.  [WaitFailed EINTR] is a call
      that fails with [EINTR] without a handler having run. *)

From Stdlib Require Import ZArith String Ascii List Bool Lia.
From stdpp Require Import base list strings.
Import ListNotations.
Open Scope Z_scope.

(** ** Characters and strings *)

Definition NUL : ascii := "000"%char.
Definition TAB : ascii := "009"%char.
Definition NL : ascii := "010"%char.

Definition nl : string := String NL "".
Definition tab : string := String TAB "".

(** [strlen] of a C string. *)
Definition strlen (s : string) : Z := Z.of_nat (String.length s).

(** [strcat(dst, src)]: the destination was sized by the caller. *)
Definition strcat (dst src : string) : string := dst +:+ src.

(** ** Machine integers *)

Definition int_of (z : Z) : Z := (z + 2 ^ 31) mod 2 ^ 32 - 2 ^ 31.
Definition size_t_of (z : Z) : Z := z mod 2 ^ 64.
(** A [u_int] value read as an [int] (same bit pattern). *)
Definition int_of_u_int (z : Z) : Z := int_of z.
(** The truth value of an [int] used as a condition. *)
Definition truthy (z : Z) : bool := negb (z =? 0).

(** ** System headers

    The constants of <sys/event.h>, <errno.h> and <fcntl.h> that the
    program uses; their values are the platform's. *)

Class SysHeaders := {
  NOTE_DELETE : Z;
  NOTE_WRITE : Z;
  NOTE_EXTEND : Z;
  NOTE_ATTRIB : Z;
  NOTE_LINK : Z;
  NOTE_RENAME : Z;
  NOTE_REVOKE : Z;
  EVFILT_READ : Z;
  EVFILT_VNODE : Z;
  EV_ADD : Z;
  EV_CLEAR : Z;
  EV_EOF : Z;
  EINTR : Z;
  OPEN_MODE : Z
}.

(** The values on FreeBSD and macOS ([OPEN_MODE] is [O_RDONLY]). *)
Definition bsd_headers : SysHeaders := {|
  NOTE_DELETE := 1;
  NOTE_WRITE := 2;
  NOTE_EXTEND := 4;
  NOTE_ATTRIB := 8;
  NOTE_LINK := 16;
  NOTE_RENAME := 32;
  NOTE_REVOKE := 64;
  EVFILT_READ := -1;
  EVFILT_VNODE := -4;
  EV_ADD := 1;
  EV_CLEAR := 32;
  EV_EOF := 32768;
  EINTR := 4;
  OPEN_MODE := 0
|}.

(** The seven change kinds of the flag table, in table order. *)
Inductive change_kind :=
  DELETE | WRITE | EXTEND | ATTRIB | LINK | RENAME | REVOKE.

Definition change_kind_eqb (a b : change_kind) : bool :=
  match a, b with
  | DELETE, DELETE | WRITE, WRITE | EXTEND, EXTEND | ATTRIB, ATTRIB
  | LINK, LINK | RENAME, RENAME | REVOKE, REVOKE => true
  | _, _ => false
  end.

Definition table_order : list change_kind :=
  [DELETE; WRITE; EXTEND; ATTRIB; LINK; RENAME; REVOKE].

Definition label (k : change_kind) : string :=
  match k with
  | DELETE => "DELETE" | WRITE => "WRITE" | EXTEND => "EXTEND"
  | ATTRIB => "ATTRIB" | LINK => "LINK" | RENAME => "RENAME"
  | REVOKE => "REVOKE"
  end.

Section Renderer.
Context {H : SysHeaders}.

Definition note_of (k : change_kind) : Z :=
  match k with
  | DELETE => NOTE_DELETE | WRITE => NOTE_WRITE | EXTEND => NOTE_EXTEND
  | ATTRIB => NOTE_ATTRIB | LINK => NOTE_LINK | RENAME => NOTE_RENAME
  | REVOKE => NOTE_REVOKE
  end.

(** The NOTE_ constants are positive [int]s with pairwise disjoint bits. *)
Definition note_ok (k : change_kind) : bool :=
  (0 <? note_of k) && (note_of k <? 2 ^ 31).

Definition notes_disjoint (a b : change_kind) : bool :=
  change_kind_eqb a b || (Z.land (note_of a) (note_of b) =? 0).

Definition notes_wf : bool :=
  forallb note_ok table_order
  && forallb (fun a => forallb (notes_disjoint a) table_order) table_order.

(** [flag_descs]: the table of the source, with its [{0, 0}] terminator
    (the terminator's name is a null pointer and is never read). *)
Record flag_desc := { flag : Z; name : string }.

Definition flag_descs : list flag_desc :=
  [ {| flag := NOTE_DELETE; name := "DELETE" |};
    {| flag := NOTE_WRITE;  name := "WRITE" |};
    {| flag := NOTE_EXTEND; name := "EXTEND" |};
    {| flag := NOTE_ATTRIB; name := "ATTRIB" |};
    {| flag := NOTE_LINK;   name := "LINK" |};
    {| flag := NOTE_RENAME; name := "RENAME" |};
    {| flag := NOTE_REVOKE; name := "REVOKE" |};
    {| flag := 0;           name := "" |} ].

(** [ALL_FLAGS]. *)
Definition ALL_FLAGS : Z :=
  Z.lor NOTE_DELETE (Z.lor NOTE_WRITE (Z.lor NOTE_EXTEND (Z.lor NOTE_ATTRIB
    (Z.lor NOTE_LINK (Z.lor NOTE_RENAME NOTE_REVOKE))))).

(** The [for] loop of [change_flags_to_msg] from entry [i] on: [tbl] is
    [flag_descs + i], [flagged] and [buf] are the loop's variables. *)
Fixpoint flag_walk (tbl : list flag_desc) (flags : Z) (flagged : bool)
    (buf : string) : string :=
  match tbl with
  | [] => buf
  | d :: rest =>
      if truthy (flag d) then
        if truthy (Z.land (flag d) flags) then
          let buf1 := if flagged then strcat buf "," else buf in
          flag_walk rest flags true (strcat buf1 (name d))
        else flag_walk rest flags flagged buf
      else buf
  end.

(** [change_flags_to_msg(flags, &buf)]: the new contents of [*buf]. *)
Definition change_flags_to_msg (flags : Z) (buf : string) : string :=
  flag_walk flag_descs flags false buf.

(** The renderer as [handle_event] calls it: on a fresh empty buffer. *)
Definition render (flags : Z) : string := change_flags_to_msg flags "".

(** The bitmask that combines the kinds of [ks] (in any order). *)
Definition mask_of (ks : list change_kind) : Z :=
  fold_right (fun k m => Z.lor (note_of k) m) 0 ks.

Definition kind_in (ks : list change_kind) (k : change_kind) : bool :=
  existsb (change_kind_eqb k) ks.

End Renderer.

(** ** The operating system *)

Inductive sys_result := SysOk | SysFail (errno : Z).

(** The environment of one run: what the system calls answer.  Descriptors
    are handed out in increasing order from [first_fd] on (nothing is ever
    closed). *)
Class OS := {
  program_name : string;
  in_fno : Z;
  first_fd : Z;
  strerror : Z -> string;
  os_kqueue : sys_result;
  os_watch_input : sys_result;
  os_open : string -> Z -> sys_result;
  os_watch : Z -> string -> sys_result
}.

(** ** Data *)

(** [struct kevent]; [udata] points to a path string that is never written
    after its creation, or is NULL. *)
Record kevent := {
  kev_ident : Z;
  kev_filter : Z;
  kev_flags : Z;
  kev_fflags : Z;
  kev_data : Z;
  kev_udata : option string
}.

Definition EV_SET (ident filter flags fflags data : Z)
    (udata : option string) : kevent :=
  {| kev_ident := ident; kev_filter := filter; kev_flags := flags;
     kev_fflags := fflags; kev_data := data; kev_udata := udata |}.

(** A buffered input stream: the bytes that are still to be read, how the
    stream ends after them (end of file, or a read error with its errno),
    and the end-of-file indicator. *)
Record FILE := {
  pending : string;
  read_error : option Z;
  eof_flag : bool
}.

Definition feof (f : FILE) : bool := eof_flag f.

(** [struct path_entry]; addresses are indices into the heap of entries. *)
Record path_entry := {
  next : option nat;
  prev : option nat;
  path : string
}.

(** The state of the process.  [paths_head] is the static local of
    [register_paths], [k_event] the local of [watcher_loop] that lives
    across its iterations. *)
Record world := {
  signal_caught : Z;
  errno_ : Z;
  heap : list path_entry;
  paths_tail : option nat;
  paths_head : option nat;
  input : FILE;
  output : string;
  stderr : string;
  kq_changes : list kevent;
  next_fd : Z;
  k_event : kevent
}.

Definition set_signal_caught (v : Z) (w : world) : world :=
  {| signal_caught := v; errno_ := errno_ w; heap := heap w;
     paths_tail := paths_tail w; paths_head := paths_head w;
     input := input w; output := output w; stderr := stderr w;
     kq_changes := kq_changes w; next_fd := next_fd w;
     k_event := k_event w |}.

Definition set_errno (v : Z) (w : world) : world :=
  {| signal_caught := signal_caught w; errno_ := v; heap := heap w;
     paths_tail := paths_tail w; paths_head := paths_head w;
     input := input w; output := output w; stderr := stderr w;
     kq_changes := kq_changes w; next_fd := next_fd w;
     k_event := k_event w |}.

Definition set_heap (v : list path_entry) (w : world) : world :=
  {| signal_caught := signal_caught w; errno_ := errno_ w; heap := v;
     paths_tail := paths_tail w; paths_head := paths_head w;
     input := input w; output := output w; stderr := stderr w;
     kq_changes := kq_changes w; next_fd := next_fd w;
     k_event := k_event w |}.

Definition set_paths_tail (v : option nat) (w : world) : world :=
  {| signal_caught := signal_caught w; errno_ := errno_ w; heap := heap w;
     paths_tail := v; paths_head := paths_head w;
     input := input w; output := output w; stderr := stderr w;
     kq_changes := kq_changes w; next_fd := next_fd w;
     k_event := k_event w |}.

Definition set_paths_head (v : option nat) (w : world) : world :=
  {| signal_caught := signal_caught w; errno_ := errno_ w; heap := heap w;
     paths_tail := paths_tail w; paths_head := v;
     input := input w; output := output w; stderr := stderr w;
     kq_changes := kq_changes w; next_fd := next_fd w;
     k_event := k_event w |}.

Definition set_input (v : FILE) (w : world) : world :=
  {| signal_caught := signal_caught w; errno_ := errno_ w; heap := heap w;
     paths_tail := paths_tail w; paths_head := paths_head w;
     input := v; output := output w; stderr := stderr w;
     kq_changes := kq_changes w; next_fd := next_fd w;
     k_event := k_event w |}.

Definition set_output (v : string) (w : world) : world :=
  {| signal_caught := signal_caught w; errno_ := errno_ w; heap := heap w;
     paths_tail := paths_tail w; paths_head := paths_head w;
     input := input w; output := v; stderr := stderr w;
     kq_changes := kq_changes w; next_fd := next_fd w;
     k_event := k_event w |}.

Definition set_stderr (v : string) (w : world) : world :=
  {| signal_caught := signal_caught w; errno_ := errno_ w; heap := heap w;
     paths_tail := paths_tail w; paths_head := paths_head w;
     input := input w; output := output w; stderr := v;
     kq_changes := kq_changes w; next_fd := next_fd w;
     k_event := k_event w |}.

Definition set_kq_changes (v : list kevent) (w : world) : world :=
  {| signal_caught := signal_caught w; errno_ := errno_ w; heap := heap w;
     paths_tail := paths_tail w; paths_head := paths_head w;
     input := input w; output := output w; stderr := stderr w;
     kq_changes := v; next_fd := next_fd w;
     k_event := k_event w |}.

Definition set_next_fd (v : Z) (w : world) : world :=
  {| signal_caught := signal_caught w; errno_ := errno_ w; heap := heap w;
     paths_tail := paths_tail w; paths_head := paths_head w;
     input := input w; output := output w; stderr := stderr w;
     kq_changes := kq_changes w; next_fd := v;
     k_event := k_event w |}.

Definition set_k_event (v : kevent) (w : world) : world :=
  {| signal_caught := signal_caught w; errno_ := errno_ w; heap := heap w;
     paths_tail := paths_tail w; paths_head := paths_head w;
     input := input w; output := output w; stderr := stderr w;
     kq_changes := kq_changes w; next_fd := next_fd w;
     k_event := v |}.

(** How a piece of the program ends: it returns ([Running]), the process
    exits ([Exited], through [err(3)]), or it does not return or follows a
    pointer to no entry ([Stuck]). *)
Inductive outcome :=
| Running (w : world)
| Exited (status : Z) (w : world)
| Stuck.

Definition bind (o : outcome) (k : world -> outcome) : outcome :=
  match o with
  | Running w => k w
  | Exited s w => Exited s w
  | Stuck => Stuck
  end.

(** The exit status a parent observes: the low eight bits of the value
    given to [exit(3)]. *)
Definition exit_status (eval : Z) : Z := Z.land eval 255.

(** ** The C library *)

(** The first line of [s], newline included, and what follows it; [None]
    when [s] holds no newline. *)
Fixpoint split_line (s : string) : option (string * string) :=
  match s with
  | EmptyString => None
  | String c s' =>
      if Ascii.eqb c NL then Some (String c "", s')
      else match split_line s' with
           | Some (l, r) => Some (String c l, r)
           | None => None
           end
  end.

(** [fgetln(in, &len)] of the BSD C library: the next line with its
    newline; at the end of the stream the unterminated rest, if it is not
    empty; NULL at the end of the stream (the end-of-file indicator is set)
    or when the read that looks for the end of the line fails.  [len] is
    the length of the line returned. *)
Definition fgetln (f : FILE) : option string * FILE :=
  match split_line (pending f) with
  | Some (line, rest) =>
      (Some line,
       {| pending := rest; read_error := read_error f; eof_flag := eof_flag f |})
  | None =>
      match read_error f with
      | Some _ => (None, f)
      | None =>
          match pending f with
          | EmptyString =>
              (None, {| pending := ""; read_error := None; eof_flag := true |})
          | String _ _ =>
              (Some (pending f),
               {| pending := ""; read_error := None; eof_flag := true |})
          end
      end
  end.

(** The C string that [strncpy(dst, src, n); dst[n] = '\0'] leaves in
    [dst]: the first [n] bytes of [src], up to its first NUL. *)
Fixpoint strncpy (src : string) (n : nat) : string :=
  match n, src with
  | S n', String c s' =>
      if Ascii.eqb c NUL then "" else String c (strncpy s' n')
  | _, _ => ""
  end.

(** [line[len - 1]]. *)
Fixpoint last_char (s : string) : ascii :=
  match s with
  | EmptyString => NUL
  | String c EmptyString => c
  | String _ s' => last_char s'
  end.

Definition set_next (v : option nat) (e : path_entry) : path_entry :=
  {| next := v; prev := prev e; path := path e |}.
Definition set_prev (v : option nat) (e : path_entry) : path_entry :=
  {| next := next e; prev := v; path := path e |}.
Definition set_path (v : string) (e : path_entry) : path_entry :=
  {| next := next e; prev := prev e; path := v |}.

(** [insque(elem, pred)] of <search.h>: [elem] becomes the successor of
    [pred]; with a null [pred] it becomes a list of its own. *)
Definition insque (elem : nat) (pred : option nat)
    (h : list path_entry) : option (list path_entry) :=
  match pred with
  | None => Some (alter (fun e => set_prev None (set_next None e)) elem h)
  | Some p =>
      match h !! p with
      | None => None
      | Some pe =>
          let nxt := next pe in
          let h1 := match nxt with
                    | Some n => alter (set_prev (Some elem)) n h
                    | None => h
                    end in
          let h2 := alter (set_next (Some elem)) p h1 in
          Some (alter (fun e => set_prev (Some p) (set_next nxt e)) elem h2)
      end
  end.

(** [malloc(sizeof(struct path_entry))]: a fresh address; the contents of
    the new entry are written before they are read. *)
Definition malloc_entry (h : list path_entry) : nat * list path_entry :=
  (length h, h ++ [ {| next := None; prev := None; path := "" |} ]).

Section Program.
Context {H : SysHeaders} {E : OS}.

(** [err(eval, fmt, ...)]: the message, the text of [errno], exit. *)
Definition err (eval : Z) (msg : string) (w : world) : outcome :=
  Exited eval
    (set_stderr (stderr w +:+ program_name +:+ ": " +:+ msg +:+ ": "
                 +:+ strerror (errno_ w) +:+ nl) w).

(** ** [register_path] *)

(** [register_path(kq, path)]; the process has one kqueue, whose
    registrations are [kq_changes]. *)
Definition register_path (path : string) (w : world) : outcome :=
  match os_open path OPEN_MODE with
  | SysFail e =>
      let w := set_errno e w in
      err (errno_ w) ("couldn't open " +:+ path) w
  | SysOk =>
      let fd := next_fd w in
      let w := set_next_fd (fd + 1) w in
      let k_fchange :=
        EV_SET fd EVFILT_VNODE (Z.lor EV_ADD EV_CLEAR) ALL_FLAGS 0
               (Some path) in
      match os_watch fd path with
      | SysFail e => err 1 ("couldn't monitor " +:+ path) (set_errno e w)
      | SysOk => Running (set_kq_changes (kq_changes w ++ [k_fchange]) w)
      end
  end.

(** ** [register_paths] *)

(** The condition of the [while] loop; [bytes_available] is an [int] that
    the comparison converts to [size_t]. *)
Definition loop_guard (bytes_read bytes_available eof_signaled : Z)
    (f : FILE) : bool :=
  (bytes_read <? size_t_of bytes_available)
  || (truthy eof_signaled && negb (feof f)).

(** [pathlen = len + (line[len - 1] == '\n' ? -1 : 0)]. *)
Definition pathlen_of (line : string) : Z :=
  int_of (strlen line + (if Ascii.eqb (last_char line) NL then -1 else 0)).

(** Lines 126 to 141: the new entry, its path, its place in the list. *)
Definition append_entry (line : string) (w : world) : option (nat * world) :=
  let '(new_path, h) := malloc_entry (heap w) in
  let pathlen := pathlen_of line in
  let h := alter (set_path (strncpy line (Z.to_nat pathlen))) new_path h in
  match insque new_path (paths_head w) h with
  | None => None
  | Some h =>
      let w := set_heap h w in
      let w := match paths_tail w with
               | None => set_paths_tail (Some new_path) w
               | Some _ => w
               end in
      Some (new_path, set_paths_head (Some new_path) w)
  end.

(** The [while] loop; every turn that goes on consumes a byte of the
    stream, and [fuel] bounds the number of turns. *)
Fixpoint register_paths_loop (fuel : nat)
    (bytes_available eof_signaled bytes_read : Z) (w : world) : outcome :=
  match fuel with
  | O => Stuck
  | S fuel' =>
      if loop_guard bytes_read bytes_available eof_signaled (input w) then
        match fgetln (input w) with
        | (None, f) =>
            let w := set_input f w in
            if feof (input w) then Running w
            else
              let w := match read_error f with
                       | Some e => set_errno e w
                       | None => w
                       end in
              err 1 "couldn't read input" w
        | (Some line, f) =>
            let w := set_input f w in
            let bytes_read := size_t_of (bytes_read + strlen line) in
            match append_entry line w with
            | None => Stuck
            | Some (new_path, w) =>
                match heap w !! new_path with
                | None => Stuck
                | Some e =>
                    bind (register_path (path e) w)
                      (register_paths_loop fuel' bytes_available eof_signaled
                         bytes_read)
                end
            end
        end
      else Running w
  end.

(** [register_paths(kq, in, bytes_available, eof_signaled)]; [in] is the
    [input] of the state.  The fuel is enough for any stream (see
    [loop_any]). *)
Definition register_paths (bytes_available eof_signaled : Z)
    (w : world) : outcome :=
  register_paths_loop (S (String.length (pending (input w))))
    bytes_available eof_signaled 0 w.

(** ** [handle_event] *)

(** [%s] of a null pointer prints [(null)]. *)
Definition udata_text (ev : kevent) : string :=
  match kev_udata ev with
  | Some p => p
  | None => "(null)"
  end.

(** [handle_event(event, out)]; [out] is the [output] of the state. *)
Definition handle_event (event : kevent) (w : world) : outcome :=
  let changes := "" in
  let changes := change_flags_to_msg (int_of_u_int (kev_fflags event)) changes in
  Running (set_output
             (output w +:+ udata_text event +:+ tab +:+ changes +:+ nl) w).

(** ** [dump_paths] *)

(** The [do ... while] loop from entry [p] on; [err] is what the
    diagnostic stream holds. *)
Fixpoint dump_walk (fuel : nat) (h : list path_entry) (p : nat)
    (err : string) : option string :=
  match fuel with
  | O => None
  | S fuel' =>
      match h !! p with
      | None => None
      | Some e =>
          let err := err +:+ path e +:+ nl in
          match next e with
          | None => Some err
          | Some q => dump_walk fuel' h q err
          end
      end
  end.

(** [dump_paths(sig)], the handler of SIGUSR1; the walk needs as many
    steps as the registry has entries. *)
Definition dump_paths (w : world) : outcome :=
  let p_entry := paths_tail w in
  let w := set_signal_caught 1 w in
  match p_entry with
  | None => Running w
  | Some p =>
      match dump_walk (length (heap w)) (heap w) p (stderr w) with
      | Some err => Running (set_stderr err w)
      | None => Stuck
      end
  end.

(** Forward iteration of the registry from its anchor, as [dump_paths]
    walks it. *)
Fixpoint iterate_from (fuel : nat) (h : list path_entry)
    (p : option nat) : option (list string) :=
  match p with
  | None => Some []
  | Some a =>
      match fuel with
      | O => None
      | S fuel' =>
          match h !! a with
          | None => None
          | Some e =>
              match iterate_from fuel' h (next e) with
              | Some ps => Some (path e :: ps)
              | None => None
              end
          end
      end
  end.

Definition iterate (w : world) : option (list string) :=
  iterate_from (length (heap w)) (heap w) (paths_tail w).

(** ** [watcher_loop] *)

(** What happens in one turn of the loop between the clearing of
    [signal_caught] (line 196) and its test (line 201): what the blocking
    [kevent] call does, and the runs of the handler. *)
Inductive wakeup :=
| Ready (ev : kevent)
    (** it returns 1 and has filled [k_event] *)
| Interrupted
    (** SIGUSR1 arrives while it blocks: [dump_paths] runs, then it
        returns -1 with [errno] set to [EINTR] *)
| WaitFailed (e : Z)
    (** it returns -1 with [errno] set to [e]; no handler has run *)
| Caught (wk : wakeup).
    (** SIGUSR1 arrives after line 196 and outside the blocking call,
        before the call is entered or after it has returned its event and
        before line 201: [dump_paths] runs, and the call does what [wk]
        says *)

(** Lines 203 to 207. *)
Definition dispatch (w : world) : outcome :=
  let ev := k_event w in
  if (kev_ident ev =? in_fno) && (kev_filter ev =? EVFILT_READ) then
    register_paths (int_of (kev_data ev)) (Z.land (kev_flags ev) EV_EOF) w
  else handle_event ev w.

(** The blocking [kevent] call of line 197, with the runs of the handler
    between lines 196 and 201: the return value of the call and the state
    at line 201.  The handler reads the registry and writes
    [signal_caught] and the diagnostic stream, the call writes [k_event]
    and [errno]: a run of the handler after the call has returned an
    event leaves the state that a run before the call leaves. *)
Fixpoint kevent_wait (wk : wakeup) (w : world) : option (Z * world) :=
  match wk with
  | Ready ev => Some (1, set_k_event ev w)
  | Interrupted =>
      match dump_paths w with
      | Running w => Some (-1, set_errno EINTR w)
      | _ => None
      end
  | WaitFailed e => Some (-1, set_errno e w)
  | Caught wk' =>
      match dump_paths w with
      | Running w => kevent_wait wk' w
      | _ => None
      end
  end.

(** One turn of the [while (1)] loop. *)
Definition loop_iteration (wk : wakeup) (w : world) : outcome :=
  let w := set_signal_caught 0 w in
  match kevent_wait wk w with
  | None => Stuck
  | Some (r, w) =>
      bind (if r =? -1 then
              if negb (errno_ w =? EINTR) then err 1 "error checking kqueue" w
              else Running w
            else Running w)
        (fun w => if truthy (signal_caught w) then Running w else dispatch w)
  end.

(** The state in which [watcher_loop] starts; [garbage] is the
    indeterminate initial value of its local [k_event]. *)
Definition boot (inp : FILE) (garbage : kevent) : world :=
  {| signal_caught := 0; errno_ := 0; heap := [];
     paths_tail := None; paths_head := None;
     input := inp; output := ""; stderr := "";
     kq_changes := []; next_fd := first_fd; k_event := garbage |}.

(** Lines 187 to 193. *)
Definition watcher_loop_init (w : world) : outcome :=
  match os_kqueue with
  | SysFail e => err 1 "couldn't get kqueue" (set_errno e w)
  | SysOk =>
      let w := set_next_fd (next_fd w + 1) w in
      let k_input :=
        EV_SET in_fno EVFILT_READ (Z.lor EV_ADD EV_CLEAR) 0 0 None in
      match os_watch_input with
      | SysFail e => err 1 "couldn't set input event" (set_errno e w)
      | SysOk => Running (set_kq_changes (kq_changes w ++ [k_input]) w)
      end
  end.

(** The turns of the loop for the wakeups [ws], in order; an exited
    process takes no further turn. *)
Fixpoint run (ws : list wakeup) (o : outcome) : outcome :=
  match ws with
  | [] => o
  | wk :: ws' =>
      match o with
      | Running w => run ws' (loop_iteration wk w)
      | _ => o
      end
  end.

Definition watcher_loop (inp : FILE) (garbage : kevent)
    (ws : list wakeup) : outcome :=
  run ws (watcher_loop_init (boot inp garbage)).

(** The event the kernel delivers for a registered change [reg] whose
    file changed in the ways [fflags]: the registration's identifier,
    filter and opaque token are echoed back. *)
Definition kernel_event (reg : kevent) (fflags : Z) : kevent :=
  {| kev_ident := kev_ident reg; kev_filter := kev_filter reg;
     kev_flags := kev_flags reg; kev_fflags := fflags; kev_data := 0;
     kev_udata := kev_udata reg |}.

(** The event the kernel delivers when [n] bytes are ready on the control
    stream; [flags] carries [EV_EOF] or not. *)
Definition input_event (n flags : Z) : kevent :=
  {| kev_ident := in_fno; kev_filter := EVFILT_READ; kev_flags := flags;
     kev_fflags := 0; kev_data := n; kev_udata := None |}.

(** The path tokens of the registrations the kqueue holds, oldest first
    (the registration of the control stream carries none). *)
Definition watches (w : world) : list string :=
  omap kev_udata (kq_changes w).

(** The text of a control stream that submits the paths [ps], one per
    line. *)
Definition feed (ps : list string) : string :=
  fold_right (fun p s => p +:+ nl +:+ s) "" ps.

(** The lines [dump_paths] prints for the paths [ps]. *)
Definition dump_text (ps : list string) : string := feed ps.

End Program.

(** * Vocabulary of the properties *)

Section Vocabulary.
Context {H : SysHeaders} {E : OS}.

(** The entry of a change kind in the flag table. *)
Definition desc_of (k : change_kind) : flag_desc :=
  {| flag := note_of k; name := label k |}.

(** Labels appended to a buffer the way the loop does it: a comma before
    each label but the first one written. *)
Fixpoint join_onto (flagged : bool) (buf : string) (ls : list string) : string :=
  match ls with
  | [] => buf
  | x :: xs => join_onto true ((if flagged then buf +:+ "," else buf) +:+ x) xs
  end.

(** The test of line 156 for the kind [k]. *)
Definition hit (flags : Z) (k : change_kind) : bool :=
  truthy (Z.land (note_of k) flags).

(** The line [handle_event] prints for an event: a function of the
    event's token and change bits alone. *)
Definition report_line (udata : option string) (fflags : Z) : string :=
  match udata with Some p => p | None => "(null)" end
  +:+ tab +:+ render (int_of_u_int fflags) +:+ nl.

(** [s] written [n] times. *)
Fixpoint rep (n : nat) (s : string) : string :=
  match n with
  | O => ""
  | S n' => s +:+ rep n' s
  end.

(** The entry at address [i] of a registry of [n] paths: entries are
    allocated in order, each linked to the one registered after it. *)
Definition entry_at (n i : nat) (p : string) : path_entry :=
  {| next := if decide (S i < n)%nat then Some (S i) else None;
     prev := match i with O => None | S j => Some j end;
     path := p |}.

(** The heap that holds the paths [ps], oldest first. *)
Definition chain (ps : list string) : list path_entry :=
  imap (entry_at (length ps)) ps.

(** The pointer to entry [i] of [n], null past the end. *)
Definition ptr (n i : nat) : option nat :=
  if decide (i < n)%nat then Some i else None.

(** The registry holds exactly the paths [ps], in this order:
    [paths_tail] is its anchor (the oldest entry), [paths_head] the entry
    registered last. *)
Record registry_is (w : world) (ps : list string) : Prop := {
  reg_heap : heap w = chain ps;
  reg_tail : paths_tail w = ptr (length ps) 0;
  reg_head : paths_head w = ptr (length ps) (length ps - 1)
}.

(** [w] with the registry replaced by one that holds [ps]. *)
Definition registry_set (ps : list string) (w : world) : world :=
  set_paths_head (ptr (length ps) (length ps - 1))
    (set_paths_tail (ptr (length ps) 0) (set_heap (chain ps) w)).

(** The path that lines 130 to 136 make of a line. *)
Definition decode (line : string) : string :=
  strncpy line (Z.to_nat (pathlen_of line)).

(** [s] holds no byte [c]. *)
Fixpoint no_char (c : ascii) (s : string) : bool :=
  match s with
  | EmptyString => true
  | String d s' => negb (Ascii.eqb d c) && no_char c s'
  end.

(** A path as a line of the control stream can carry it: no newline, no
    NUL, and short enough for the [int] that holds its length. *)
Definition plain (p : string) : bool :=
  no_char NL p && no_char NUL p && (strlen p <? 2 ^ 31 - 1).

(** The path can be opened and armed, whichever descriptor it gets. *)
Definition registrable (p : string) : Prop :=
  os_open p OPEN_MODE = SysOk /\ forall fd, os_watch fd p = SysOk.

(** A valid path line: a plain path that can be opened and armed. *)
Definition valid_path (p : string) : Prop :=
  plain p = true /\ registrable p.

(** The registration of the control stream (line 190). *)
Definition input_change : kevent :=
  EV_SET in_fno EVFILT_READ (Z.lor EV_ADD EV_CLEAR) 0 0 None.

(** The registration of the [i]-th path (line 90): descriptors are handed
    out in order, the kqueue's own being the first. *)
Definition vnode_change (i : nat) (p : string) : kevent :=
  EV_SET (first_fd + 1 + Z.of_nat i) EVFILT_VNODE (Z.lor EV_ADD EV_CLEAR)
         ALL_FLAGS 0 (Some p).

(** The state in which the registry holds the paths [reg], the kqueue
    the registrations of the paths [armed], and the control stream is
    [f]; everything else is as in [w]. *)
Definition at_state (reg armed : list string) (f : FILE) (w : world) : world :=
  {| signal_caught := signal_caught w; errno_ := errno_ w;
     heap := chain reg;
     paths_tail := ptr (length reg) 0;
     paths_head := ptr (length reg) (length reg - 1);
     input := f; output := output w; stderr := stderr w;
     kq_changes := input_change :: imap vnode_change armed;
     next_fd := first_fd + 1 + Z.of_nat (length armed);
     k_event := k_event w |}.

(** Registry and kqueue hold the same paths. *)
Definition at_paths (ps : list string) (f : FILE) (w : world) : world :=
  at_state ps ps f w.

(** The kqueue holds the registrations of exactly the paths [ps]. *)
Definition armed (w : world) (ps : list string) : Prop :=
  kq_changes w = input_change :: imap vnode_change ps
  /\ next_fd w = first_fd + 1 + Z.of_nat (length ps).

(** What [err] writes for the message [msg] when [errno] is [e]. *)
Definition err_text (msg : string) (e : Z) : string :=
  program_name +:+ ": " +:+ msg +:+ ": " +:+ strerror e +:+ nl.

(** The registry and the kqueue after a piece of the program: in step
    when it returns; in step, or the registry one path ahead, when the
    process exits. *)
Definition in_step (o : outcome) : Prop :=
  match o with
  | Running w => exists ps f, w = at_paths ps f w
  | Exited _ w =>
      exists ps, watches w = ps
        /\ (registry_is w ps \/ exists p, registry_is w (ps ++ [p]))
  | Stuck => False
  end.

(** The final path an unterminated rest yields: none when it is empty. *)
Definition rest_path (last : string) : list string :=
  if decide (last = "") then [] else [last].

(** The paths [ps] are registered in [w], in this order: the kqueue holds
    one vnode registration per path after that of the control stream,
    iterating the registry yields the paths oldest first, and the
    diagnostic dump prints them so. *)
Definition registered (w : world) (ps : list string) : Prop :=
  kq_changes w = input_change :: imap vnode_change ps
  /\ length (watches w) = length ps
  /\ iterate w = Some ps
  /\ dump_paths w
     = Running (set_stderr (stderr w +:+ dump_text ps) (set_signal_caught 1 w)).

(** How far the loop has read a stream that submits [ps]: it has
    registered the first [k] paths and the rest is still to be read. *)
Definition progress (ps : list string) (o : outcome) : Prop :=
  match o with
  | Running w =>
      exists k ef,
        w = at_paths (take k ps)
              {| pending := feed (drop k ps); read_error := None;
                 eof_flag := ef |} w
  | Exited _ _ => True
  | Stuck => False
  end.

(** The condition under which, in the words of the specification, the
    parser stops reading: the bytes consumed have reached the ready byte
    count, or the end of the stream was signaled and has been reached. *)
Definition spec_until (bytes_read bytes_available eof_signaled : Z)
    (f : FILE) : bool :=
  (size_t_of bytes_available <=? bytes_read)
  || (truthy eof_signaled && feof f).

(** The loop goes on exactly as long as the specification's condition
    does not hold. *)
Definition stops_as_specified : Prop :=
  forall (br avail eof : Z) (f : FILE),
    loop_guard br avail eof f = negb (spec_until br avail eof f).

End Vocabulary.

(** ** A sample platform *)

(** A platform for concrete runs: the paths under [/tmp/] can be opened
    and armed, every other path fails with ENOENT. *)
Definition sample_os : OS := {|
  program_name := "kqfm";
  in_fno := 0;
  first_fd := 3;
  strerror := fun e => if e =? 2 then "No such file or directory"
                       else "Unknown error";
  os_kqueue := SysOk;
  os_watch_input := SysOk;
  os_open := fun p _ => if String.prefix "/tmp/" p then SysOk else SysFail 2;
  os_watch := fun _ _ => SysOk
|}.

Definition no_event : kevent := EV_SET 0 0 0 0 0 None.

Definition fresh_stream (s : string) : FILE :=
  {| pending := s; read_error := None; eof_flag := false |}.

(** * The rest of the program *)

(** ** The buffer of [change_flags_to_msg], with its size *)

(** A block from [malloc] or [realloc]: [buf_size] bytes that hold the C
    string [buf_text] and its terminator. *)
Record cbuf := {
  buf_text : string;
  buf_size : Z
}.

(** [realloc(ptr, size)]: the contents are kept; [None] when the string
    and its terminator do not fit the new size any more. *)
Definition realloc (b : cbuf) (n : Z) : option cbuf :=
  if strlen (buf_text b) + 1 <=? n
  then Some {| buf_text := buf_text b; buf_size := n |}
  else None.

(** [strcat(dst, src)] into a block: [None] when the result and its
    terminator would be written past the end of the block. *)
Definition strcat_in (b : cbuf) (src : string) : option cbuf :=
  if strlen (buf_text b) + strlen src + 1 <=? buf_size b
  then Some {| buf_text := buf_text b +:+ src; buf_size := buf_size b |}
  else None.

(** The loop of [change_flags_to_msg] with [buflen] and the [realloc] of
    lines 157 and 158. *)
Fixpoint flag_walk_sized (tbl : list flag_desc) (flags : Z) (flagged : bool)
    (b : cbuf) : option cbuf :=
  match tbl with
  | [] => Some b
  | d :: rest =>
      if truthy (flag d) then
        if truthy (Z.land (flag d) flags) then
          let buflen :=
            size_t_of (strlen (buf_text b) + strlen (name d)
                       + (if flagged then 1 else 0) + 1) in
          match realloc b buflen with
          | None => None
          | Some b =>
              match (if flagged then strcat_in b "," else Some b) with
              | None => None
              | Some b =>
                  match strcat_in b (name d) with
                  | None => None
                  | Some b => flag_walk_sized rest flags true b
                  end
              end
          end
        else flag_walk_sized rest flags flagged b
      else Some b
  end.

(** The bytes the labels of a table and their commas can take. *)
Definition table_weight (tbl : list flag_desc) : Z :=
  fold_right (fun d n => strlen (name d) + 1 + n) 0 tbl.

(** ** [print_usage], [parse_options], [main] *)

(** The stream a [FILE *] argument names. *)
Inductive stream_id := Stdout | Stderr.

Section CommandLine.
Context {H : SysHeaders} {E : OS}.

Definition fprintf (s : string) (out : stream_id) (w : world) : world :=
  match out with
  | Stdout => set_output (output w +:+ s) w
  | Stderr => set_stderr (stderr w +:+ s) w
  end.

(** [print_usage(out)]. *)
Definition print_usage (out : stream_id) (w : world) : world :=
  let w :=
    fprintf (program_name
           +:+ ": takes newline delimited filenames to watch on stdin and reports changes on stdout"
           +:+ nl) out w in
  let w := fprintf ("usage: " +:+ program_name +:+ " options " +:+ nl) out w in
  fprintf ("  -h  --help             Display this usage information." +:+ nl)
    out w.

(** One call of [getopt_long(argc, argv, "h", longopts, NULL)]: the value
    it returns and, when that is ['?'], the message it has written to the
    diagnostic stream about the option it does not know ([opterr] is left
    set). *)
Record getopt_result := {
  opt_ret : Z;
  opt_msg : string
}.

Definition getopt_long (r : getopt_result) (w : world) : Z * world :=
  (opt_ret r, if opt_ret r =? 63 then fprintf (opt_msg r) Stderr w else w).

(** [parse_options(argc, argv)]; [results] are the successive calls of
    [getopt_long] for the command line (the call after the last of them
    returns -1).  ['?'] is 63 and ['h'] is 104. *)
Fixpoint parse_options (results : list getopt_result) (w : world) : outcome :=
  match results with
  | [] => Running w
  | r :: rest =>
      let '(optchar, w) := getopt_long r w in
      if optchar =? -1 then Running w
      else if (optchar =? 63) || (optchar =? 104)
           then Exited 0 (print_usage Stdout w)
           else parse_options rest w
  end.

(** [main(argc, argv)]: [program_name] is the base name of [argv[0]],
    the handler of SIGUSR1 is [dump_paths] (what an [Interrupted] and
    a [Caught] wakeup run), and [watcher_loop] does not return. *)
Definition main (results : list getopt_result) (inp : FILE) (garbage : kevent)
    (ws : list wakeup) : outcome :=
  bind (parse_options results (boot inp garbage))
    (fun w => run ws (watcher_loop_init w)).

(** The text [print_usage] writes. *)
Definition usage_text : string :=
  program_name
  +:+ ": takes newline delimited filenames to watch on stdin and reports changes on stdout"
  +:+ nl +:+ "usage: " +:+ program_name +:+ " options " +:+ nl
  +:+ "  -h  --help             Display this usage information." +:+ nl.

(** The first call of [getopt_long] that ends the loop of [parse_options]
    returns an option, known (['h']) or not (['?']), not the -1 that ends
    the options. *)
Definition asks_usage (results : list getopt_result) : bool :=
  match List.find (fun r => (opt_ret r =? -1) || (opt_ret r =? 63)
                            || (opt_ret r =? 104)) results with
  | Some r => negb (opt_ret r =? -1)
  | None => false
  end.

(** ** Vocabulary of the runs *)

(** The lines of a stream as [fgetln] returns them one after the other:
    each with its newline, the last one without when the stream does not
    end in a newline. *)
Fixpoint chunks (s : string) : list string :=
  match s with
  | EmptyString => []
  | String c s' =>
      if Ascii.eqb c NL then String c "" :: chunks s'
      else match chunks s' with
           | [] => [String c ""]
           | l :: ls => String c l :: ls
           end
  end.

(** Every line of the stream is short enough for the [int] that holds
    the length of its path, and for that length plus one. *)
Definition short_lines (s : string) : bool :=
  forallb (fun l => strlen l <? 2 ^ 31 - 1) (chunks s).

(** A line without its final newline. *)
Fixpoint chomp (l : string) : string :=
  match l with
  | EmptyString => ""
  | String c EmptyString => if Ascii.eqb c NL then "" else l
  | String c l' => String c (chomp l')
  end.

(** The C string a buffer holds: its bytes before the first NUL. *)
Fixpoint c_str (s : string) : string :=
  match s with
  | EmptyString => ""
  | String c s' => if Ascii.eqb c NUL then "" else String c (c_str s')
  end.

(** The path a line of the control stream names. *)
Definition path_of_line (l : string) : string := c_str (chomp l).

(** A path holds no newline and no NUL. *)
Definition clean (p : string) : bool := no_char NL p && no_char NUL p.

(** The error code the blocking call of a turn fails with, when it
    fails. *)
Fixpoint wait_error (wk : wakeup) : option Z :=
  match wk with
  | Ready _ => None
  | Interrupted => Some EINTR
  | WaitFailed e => Some e
  | Caught wk' => wait_error wk'
  end.

(** The handler of the diagnostic trigger runs in the turn, between
    lines 196 and 201. *)
Definition trigger_handled (wk : wakeup) : bool :=
  match wk with
  | Interrupted | Caught _ => true
  | Ready _ | WaitFailed _ => false
  end.

(** The event is the readiness of the control stream (line 203). *)
Definition is_input_event (ev : kevent) : bool :=
  (kev_ident ev =? in_fno) && (kev_filter ev =? EVFILT_READ).

(** The report line of a wakeup: that of its event, when the wait
    returned one that is not the readiness of the control stream and the
    handler has not run in the turn. *)
Definition report_of (wk : wakeup) : string :=
  match wk with
  | Ready ev =>
      if is_input_event ev then ""
      else report_line (kev_udata ev) (kev_fflags ev)
  | _ => ""
  end.

(** The report lines of the wakeups [ws], in their order. *)
Fixpoint reports_of (ws : list wakeup) : string :=
  match ws with
  | [] => ""
  | wk :: ws' => report_of wk +:+ reports_of ws'
  end.

(** No wait of [ws] fails with [EINTR] without the handler having run. *)
Definition no_bare_eintr (ws : list wakeup) : bool :=
  forallb (fun wk => match wk with
                     | WaitFailed e => negb (e =? EINTR)
                     | _ => true
                     end) ws.

(** The registry is a well-formed doubly linked list: [next] and [prev]
    are inverse to each other, the anchor has no predecessor and the head
    no successor. *)
Definition doubly_linked (w : world) : Prop :=
  (forall a b ea, heap w !! a = Some ea -> next ea = Some b ->
     exists eb, heap w !! b = Some eb /\ prev eb = Some a)
  /\ (forall a b eb, heap w !! b = Some eb -> prev eb = Some a ->
        exists ea, heap w !! a = Some ea /\ next ea = Some b)
  /\ match paths_tail w with
     | None => heap w = []
     | Some t => exists et, heap w !! t = Some et /\ prev et = None
     end
  /\ match paths_head w with
     | None => heap w = []
     | Some h => exists eh, heap w !! h = Some eh /\ next eh = None
     end.

(** How the process can exit from the watcher loop: with status 1, or
    with the error code of a failed [open] of the path it names. *)
Definition exit_cause (s : Z) : Prop :=
  s = 1 \/ exists p e, os_open p OPEN_MODE = SysFail e /\ s = e.

(** What a piece of the program started in [w] leaves on the two output
    streams when it does not report: nothing when it returns; when the
    process exits, one message of [err] on the diagnostic stream. *)
Definition quiet_from (w : world) (o : outcome) : Prop :=
  match o with
  | Running w' => output w' = output w /\ stderr w' = stderr w
  | Exited s w' =>
      exit_cause s /\ output w' = output w
      /\ exists msg e, stderr w' = stderr w +:+ err_text msg e
  | Stuck => True
  end.

(** The streams after the turns of the loop for the wakeups [ws], started
    in [w]. *)
Definition traced_from (w : world) (ws : list wakeup) (o : outcome) : Prop :=
  match o with
  | Running w' =>
      no_bare_eintr ws = true -> output w' = output w +:+ reports_of ws
  | Exited s w' =>
      exit_cause s
      /\ (exists pre msg e, stderr w' = pre +:+ err_text msg e)
      /\ (no_bare_eintr ws = true ->
          exists k, output w' = output w +:+ reports_of (take k ws))
  | Stuck => True
  end.

(** How far the loop has read a stream of the lines [lines], started
    with the paths [ps0] registered: it has read the lines [done] and
    added their paths to the registry; the kqueue holds the registrations
    of the paths [ps0 ++ arm]. *)
Definition consumed (ps0 lines : list string) (o : outcome) : Prop :=
  match o with
  | Running w =>
      exists done f,
        w = at_paths (ps0 ++ (decode <$> done)) f w
        /\ lines = done ++ chunks (pending f)
  | Exited _ w =>
      exists done arm,
        registry_is w (ps0 ++ (decode <$> done))
        /\ lines = done ++ chunks (pending (input w))
        /\ kq_changes w = input_change :: imap vnode_change (ps0 ++ arm)
        /\ arm `prefix_of` (decode <$> done)
  | Stuck => False
  end.

End CommandLine.

(** * Properties *)

(** ** Strings *)

Lemma sapp_cons (c : ascii) (s t : string) :
  String c s +:+ t = String c (s +:+ t).
Proof. reflexivity. Qed.

Lemma sapp_nil_l (s : string) : "" +:+ s = s.
Proof. reflexivity. Qed.

Lemma sapp_nil_r (s : string) : s +:+ "" = s.
Proof. induction s as [|c s IH]; [reflexivity|]. by rewrite sapp_cons, IH. Qed.

Lemma sapp_assoc (a b c : string) : (a +:+ b) +:+ c = a +:+ (b +:+ c).
Proof.
  induction a as [|x a IH]; [reflexivity|]. by rewrite !sapp_cons, IH.
Qed.

Lemma slength_app (a b : string) :
  String.length (a +:+ b) = (String.length a + String.length b)%nat.
Proof.
  induction a as [|x a IH]; [reflexivity|].
  rewrite sapp_cons. simpl. by rewrite IH.
Qed.

(** ** The change renderer *)

Section RendererFacts.
Context {H : SysHeaders}.

(** The table of the source is the seven kinds in table order, then the
    terminator. *)
Lemma flag_descs_table :
  flag_descs = map desc_of table_order ++ [ {| flag := 0; name := "" |} ].
Proof. reflexivity. Qed.

Lemma flag_walk_table (l : list change_kind) (flags : Z) :
  Forall (fun k => note_of k <> 0) l ->
  forall flagged buf,
    flag_walk (map desc_of l ++ [ {| flag := 0; name := "" |} ]) flags flagged buf
    = join_onto flagged buf (map label (List.filter (hit flags) l)).
Proof.
  induction 1 as [|k l Hk _ IH]; intros flagged buf; [reflexivity|].
  cbn [map app flag_walk List.filter desc_of flag name].
  unfold truthy at 1. destruct (Z.eqb_spec (note_of k) 0) as [?|_]; [done|].
  cbn [negb]. unfold hit at 1. fold (hit flags).
  destruct (truthy (Z.land (note_of k) flags)); cbn [map join_onto];
    by rewrite IH.
Qed.

Lemma join_onto_flagged (buf : string) (ls : list string) :
  join_onto true buf ls
  = buf +:+ fold_right (fun x acc => "," +:+ x +:+ acc) "" ls.
Proof.
  revert buf. induction ls as [|x xs IH]; intros buf; cbn [join_onto fold_right].
  - by rewrite sapp_nil_r.
  - by rewrite IH, !sapp_assoc.
Qed.

Lemma concat_commas (x : string) (xs : list string) :
  String.concat "," (x :: xs)
  = x +:+ fold_right (fun x acc => "," +:+ x +:+ acc) "" xs.
Proof.
  revert x. induction xs as [|y r IH]; intros x.
  - by rewrite sapp_nil_r.
  - change (String.concat "," (x :: y :: r))
      with (x +:+ "," +:+ String.concat "," (y :: r)).
    by rewrite IH.
Qed.

Lemma join_onto_concat (ls : list string) :
  join_onto false "" ls = String.concat "," ls.
Proof.
  destruct ls as [|x xs]; [reflexivity|].
  cbn [join_onto]. by rewrite join_onto_flagged, concat_commas.
Qed.

Lemma kind_in_table (k : change_kind) : In k table_order.
Proof. destruct k; cbn; tauto. Qed.

Lemma change_kind_eqb_eq (a b : change_kind) :
  change_kind_eqb a b = true <-> a = b.
Proof. destruct a, b; cbn; split; congruence. Qed.

Lemma notes_wf_ok : notes_wf = true ->
  forall k, 0 < note_of k < 2 ^ 31.
Proof.
  unfold notes_wf. intros [Hok _]%andb_true_iff k.
  rewrite forallb_forall in Hok. specialize (Hok k (kind_in_table k)).
  unfold note_ok in Hok. apply andb_true_iff in Hok as [?%Z.ltb_lt ?%Z.ltb_lt].
  done.
Qed.

Lemma notes_wf_disjoint : notes_wf = true ->
  forall a b, a <> b -> Z.land (note_of a) (note_of b) = 0.
Proof.
  unfold notes_wf. intros [_ Hd]%andb_true_iff a b Hab.
  rewrite forallb_forall in Hd. specialize (Hd a (kind_in_table a)).
  rewrite forallb_forall in Hd. specialize (Hd b (kind_in_table b)).
  unfold notes_disjoint in Hd. apply orb_true_iff in Hd as [Heq|Hz].
  - by apply change_kind_eqb_eq in Heq.
  - by apply Z.eqb_eq.
Qed.

Lemma notes_nonzero : notes_wf = true ->
  Forall (fun k => note_of k <> 0) table_order.
Proof.
  intros Hwf. apply Forall_forall. intros k _.
  pose proof (notes_wf_ok Hwf k). lia.
Qed.

(** A kind's bit is set in the mask of [ks] exactly when it is in [ks]. *)
Lemma hit_mask_of : notes_wf = true ->
  forall ks k, hit (mask_of ks) k = kind_in ks k.
Proof.
  intros Hwf ks k. unfold hit, truthy.
  induction ks as [|a ks IH]; cbn [mask_of fold_right kind_in existsb].
  - by rewrite Z.land_0_r.
  - fold (mask_of ks). fold (kind_in ks k).
    rewrite Z.land_lor_distr_r.
    destruct (change_kind_eqb k a) eqn:Hka; cbn [orb].
    + apply change_kind_eqb_eq in Hka as ->.
      rewrite Z.land_diag.
      pose proof (notes_wf_ok Hwf a).
      destruct (Z.eqb_spec (Z.lor (note_of a) (Z.land (note_of a) (mask_of ks))) 0)
        as [Hz|_]; [|done].
      apply Z.lor_eq_0_iff in Hz. lia.
    + rewrite (notes_wf_disjoint Hwf k a), Z.lor_0_l; [done|].
      intros ->. destruct a; discriminate.
Qed.

Lemma render_join (flags : Z) : notes_wf = true ->
  render flags
  = String.concat "," (map label (List.filter (hit flags) table_order)).
Proof.
  intros Hwf. unfold render, change_flags_to_msg.
  rewrite flag_descs_table, flag_walk_table by by apply notes_nonzero.
  apply join_onto_concat.
Qed.

Lemma filter_ext_bool {A} (f g : A -> bool) (l : list A) :
  (forall x, f x = g x) -> List.filter f l = List.filter g l.
Proof.
  intros Hfg. induction l as [|x l IH]; cbn; [done|]. by rewrite Hfg, IH.
Qed.

Lemma render_mask : notes_wf = true ->
  forall ks : list change_kind,
    render (mask_of ks)
    = String.concat "," (map label (List.filter (kind_in ks) table_order)).
Proof.
  intros Hwf ks. rewrite render_join by done.
  do 2 f_equal. apply filter_ext_bool, (hit_mask_of Hwf).
Qed.

(** C2. Rendering the bitmask that combines the change kinds [ks], given
    in any order and with any repetition, yields the labels of those kinds
    joined by commas in the order of the table (DELETE, WRITE, EXTEND,
    ATTRIB, LINK, RENAME, REVOKE); the empty bitmask renders as the empty
    string, and WRITE combined with DELETE renders as DELETE,WRITE. *)
Theorem render_table_order :
  notes_wf = true ->
  (forall ks : list change_kind,
     render (mask_of ks)
     = String.concat "," (map label (List.filter (kind_in ks) table_order)))
  /\ render 0 = ""
  /\ render (Z.lor NOTE_WRITE NOTE_DELETE) = "DELETE,WRITE".
Proof.
  intros Hwf. split; [by apply render_mask|split].
  - exact (render_mask Hwf []).
  - pose proof (render_mask Hwf [WRITE; DELETE]) as Hwd.
    cbn [mask_of fold_right note_of] in Hwd.
    rewrite Z.lor_0_r in Hwd. exact Hwd.
Qed.

End RendererFacts.

Lemma render_table_order_witness :
  @notes_wf bsd_headers = true
  /\ @render bsd_headers (@mask_of bsd_headers [RENAME; WRITE; DELETE; WRITE])
     = "DELETE,WRITE,RENAME".
Proof.
  split; [reflexivity|].
  exact (proj1 (@render_table_order bsd_headers eq_refl) [RENAME; WRITE; DELETE; WRITE]).
Defined.

Section RendererBits.
Context {H : SysHeaders} {E : OS}.

Lemma flag_walk_ext (m1 m2 : Z) (tbl : list flag_desc) :
  Forall (fun d => Z.land (flag d) m1 = Z.land (flag d) m2) tbl ->
  forall flagged buf,
    flag_walk tbl m1 flagged buf = flag_walk tbl m2 flagged buf.
Proof.
  induction 1 as [|d tbl Hd _ IH]; intros flagged buf; cbn [flag_walk]; [done|].
  rewrite Hd. destruct (truthy (flag d)); [|done].
  destruct (truthy (Z.land (flag d) m2)); by rewrite IH.
Qed.

Lemma flag_walk_none (tbl : list flag_desc) (flagged : bool) (buf : string) :
  flag_walk tbl 0 flagged buf = buf.
Proof.
  revert flagged buf. induction tbl as [|d tbl IH]; intros flagged buf;
    cbn [flag_walk]; [done|].
  rewrite Z.land_0_r. cbn. by destruct (truthy (flag d)).
Qed.

Local Ltac bitwise :=
  apply Z.bits_inj'; intros n _;
  rewrite ?Z.land_spec, ?Z.ldiff_spec, ?Z.lor_spec, ?Z.land_spec,
    ?Z.lor_spec, ?Z.bits_0;
  repeat match goal with
         | |- context [Z.testbit ?x n] => destruct (Z.testbit x n)
         end;
  reflexivity.

Lemma note_in_all_flags (k : change_kind) :
  Z.land (note_of k) ALL_FLAGS = note_of k.
Proof. destruct k; unfold ALL_FLAGS; cbn [note_of]; bitwise. Qed.

Lemma land_known (f m : Z) :
  Z.land f ALL_FLAGS = f -> Z.land f (Z.land m ALL_FLAGS) = Z.land f m.
Proof.
  intros Hf. rewrite (Z.land_comm m), Z.land_assoc, Hf. done.
Qed.

Lemma ldiff_all_flags (m : Z) : Z.land (Z.ldiff m ALL_FLAGS) ALL_FLAGS = 0.
Proof. generalize ALL_FLAGS. intros a. bitwise. Qed.

(** C9. Rendering a bitmask is rendering its restriction to the seven
    known change kinds; a bitmask with no bit of a known kind renders as
    the empty string.  The renderer is a total function: no bit makes it
    fail. *)
Theorem render_ignores_unknown_bits :
  (forall m : Z, render m = render (Z.land m ALL_FLAGS))
  /\ (forall m : Z, render (Z.ldiff m ALL_FLAGS) = "").
Proof.
  assert (Hres : forall m : Z, render m = render (Z.land m ALL_FLAGS)).
  { intros m. unfold render, change_flags_to_msg. apply flag_walk_ext.
    rewrite flag_descs_table. apply Forall_app. split.
    - apply List.Forall_forall. intros d [k [<- _]]%in_map_iff.
      cbn [flag desc_of].
      symmetry. apply land_known, note_in_all_flags.
    - repeat constructor. }
  split; [exact Hres|].
  intros m. rewrite Hres, ldiff_all_flags.
  apply flag_walk_none.
Qed.

Lemma handle_event_line (ev : kevent) (w : world) :
  handle_event ev w
  = Running (set_output
               (output w +:+ report_line (kev_udata ev) (kev_fflags ev)) w).
Proof. reflexivity. Qed.

Lemma set_output_twice (a b : string) (w : world) :
  set_output a (set_output b w) = set_output a w.
Proof. reflexivity. Qed.

Lemma rep_snoc (n : nat) (l : string) : rep n l +:+ l = l +:+ rep n l.
Proof.
  induction n as [|n IH]; cbn [rep].
  - by rewrite sapp_nil_r.
  - by rewrite sapp_assoc, IH.
Qed.

Lemma handle_event_iter (ev : kevent) (n : nat) (w : world) :
  Nat.iter n (fun o => bind o (handle_event ev)) (Running w)
  = Running (set_output
               (output w +:+ rep n (report_line (kev_udata ev) (kev_fflags ev)))
               w).
Proof.
  induction n as [|n IH]; [|rewrite Nat.iter_succ]; cbn [rep].
  - cbn. rewrite sapp_nil_r. by destruct w.
  - rewrite IH. cbn [bind]. rewrite handle_event_line, set_output_twice.
    change (output (set_output ?a w)) with a.
    by rewrite sapp_assoc, rep_snoc.
Qed.

(** C8. The rendering of a bitmask is a function of the bitmask alone:
    whatever the state of the process and whatever else the event holds,
    [handle_event] appends the same bytes for the same token and bitmask,
    changes nothing but the report stream, and doing it [n] times in a row
    appends the same line [n] times. *)
Theorem render_deterministic (m : Z) :
  exists text : string,
    text = render (int_of_u_int m)
    /\ forall (w : world) (ident filt flags data : Z) (udata : option string)
         (n : nat),
         handle_event (EV_SET ident filt flags m data udata) w
         = Running (set_output
                      (output w
                       +:+ match udata with Some p => p | None => "(null)" end
                       +:+ tab +:+ text +:+ nl) w)
         /\ Nat.iter n
              (fun o => bind o (handle_event (EV_SET ident filt flags m data udata)))
              (Running w)
            = Running (set_output
                         (output w
                          +:+ rep n (match udata with Some p => p | None => "(null)" end
                                     +:+ tab +:+ text +:+ nl)) w).
Proof.
  exists (render (int_of_u_int m)). split; [done|].
  intros w ident filt flags data udata n. split.
  - apply handle_event_line.
  - apply handle_event_iter.
Qed.

End RendererBits.

(** ** The path registry *)

Lemma length_chain (ps : list string) : length (chain ps) = length ps.
Proof. apply length_imap. Qed.

Lemma lookup_chain (ps : list string) (i : nat) :
  chain ps !! i = entry_at (length ps) i <$> ps !! i.
Proof. apply list_lookup_imap. Qed.

(** Inserting the fresh entry after the current head yields the chain
    with one more path. *)
Lemma insque_chain (ps : list string) (p : string) :
  insque (length ps) (ptr (length ps) (length ps - 1))
    (alter (set_path p) (length ps)
       (chain ps ++ [ {| next := None; prev := None; path := "" |} ]))
  = Some (chain (ps ++ [p])).
Proof.
  pose proof (length_chain ps) as Hlen.
  destruct (decide (length ps = 0)%nat) as [Hz|Hnz].
  - assert (ps = []) as -> by by apply length_zero_iff_nil.
    reflexivity.
  - remember (length ps) as n eqn:Hn.
    unfold ptr. destruct (decide (n - 1 < n)%nat) as [_|?]; [|lia].
    cbn [insque].
    destruct (lookup_lt_is_Some_2 ps (n - 1)) as [q Hq]; [lia|].
    rewrite list_lookup_alter_ne by lia.
    rewrite lookup_app_l by lia.
    rewrite lookup_chain, Hq, <- Hn.
    cbn [fmap option_fmap option_map entry_at next].
    destruct (decide (S (n - 1) < n)%nat) as [?|_]; [lia|].
    f_equal. apply list_eq. intros i.
    rewrite !list_lookup_alter, lookup_chain, length_app, <- Hn.
    cbn [length].
    destruct (decide (i = n)) as [->|Hni];
      [|destruct (decide (i = n - 1)%nat) as [->|Hpi]];
      repeat case_decide; try lia.
    + rewrite !lookup_app_r by lia. rewrite Hlen, <- Hn, !Nat.sub_diag. cbn.
      unfold entry_at. destruct (decide (S n < n + 1)%nat); [lia|].
      destruct n; [done|]. cbn. unfold set_prev, set_next, set_path; cbn.
      do 3 f_equal. lia.
    + rewrite !lookup_app_l by lia. rewrite lookup_chain, Hq, <- Hn. cbn.
      unfold entry_at, set_next; cbn.
      destruct (decide (S (n - 1) < n + 1)%nat); [|lia].
      do 3 f_equal. lia.
    + destruct (decide (i < n)%nat) as [Hlt|Hge].
      * rewrite !lookup_app_l by lia. rewrite lookup_chain, <- Hn.
        destruct (ps !! i) as [r|]; [|done]. cbn. unfold entry_at.
        destruct (decide (S i < n)%nat), (decide (S i < n + 1)%nat);
          done || lia.
      * rewrite !lookup_ge_None_2; [done|rewrite length_app; cbn; lia..].
Qed.

Lemma append_entry_spec (line : string) (w : world) (ps : list string) :
  registry_is w ps ->
  append_entry line w
  = Some (length ps, registry_set (ps ++ [decode line]) w)
  /\ heap (registry_set (ps ++ [decode line]) w) !! length ps
     = Some (entry_at (length ps + 1) (length ps) (decode line)).
Proof.
  intros [Hh Ht Hd]. split.
  - unfold append_entry, malloc_entry. rewrite Hh, Hd, length_chain.
    fold (decode line). rewrite insque_chain.
    cbn [paths_tail set_heap]. rewrite Ht.
    unfold registry_set. rewrite length_app. cbn [length].
    unfold ptr at 1. destruct (decide (0 < length ps)%nat) as [Hpos|Hz].
    + unfold ptr.
      destruct (decide (length ps + 1 - 1 < length ps + 1)%nat); [|lia].
      destruct (decide (0 < length ps + 1)%nat); [|lia].
      replace (length ps + 1 - 1)%nat with (length ps) by lia.
      do 3 f_equal.
      destruct w; cbn in *. unfold set_paths_tail, set_heap; cbn.
      rewrite Ht. unfold ptr. by destruct (decide (0 < length ps)%nat).
    + unfold ptr.
      destruct (decide (length ps + 1 - 1 < length ps + 1)%nat); [|lia].
      destruct (decide (0 < length ps + 1)%nat); [|lia].
      replace (length ps + 1 - 1)%nat with (length ps) by lia.
      by replace (length ps) with 0%nat by lia.
  - cbn. rewrite lookup_chain, length_app. cbn [length].
    rewrite lookup_app_r by lia. by rewrite Nat.sub_diag.
Qed.

(** Forward iteration from entry [i] yields the paths from [i] on, and
    ends within as many steps as there are entries left. *)
Lemma iterate_from_chain (ps : list string) (k : nat) :
  forall i fuel, (i + k = length ps)%nat -> (k <= fuel)%nat ->
    iterate_from fuel (chain ps) (ptr (length ps) i) = Some (drop i ps).
Proof.
  induction k as [|k IH]; intros i fuel Hik Hfuel.
  - unfold ptr. destruct (decide (i < length ps)%nat); [lia|].
    rewrite drop_ge by lia. by destruct fuel.
  - unfold ptr. destruct (decide (i < length ps)%nat) as [Hlt|]; [|lia].
    destruct fuel as [|fuel]; [lia|]. cbn [iterate_from].
    destruct (lookup_lt_is_Some_2 ps i Hlt) as [p Hp].
    rewrite lookup_chain, Hp. cbn [fmap option_fmap option_map entry_at next path].
    fold (ptr (length ps) (S i)).
    rewrite IH by lia. by rewrite (drop_S _ _ _ Hp).
Qed.

Lemma iterate_registry (w : world) (ps : list string) :
  registry_is w ps -> iterate w = Some ps.
Proof.
  intros [Hh Ht _]. unfold iterate. rewrite Hh, Ht, length_chain.
  by rewrite (iterate_from_chain ps (length ps) 0 (length ps)) by lia.
Qed.

Lemma feed_app (ps qs : list string) : feed (ps ++ qs) = feed ps +:+ feed qs.
Proof.
  induction ps as [|p ps IH]; [done|]. cbn [app feed fold_right].
  fold (feed (ps ++ qs)). fold (feed ps). by rewrite IH, !sapp_assoc.
Qed.

Lemma dump_walk_chain (ps : list string) (k : nat) :
  forall i fuel err, (i + S k = length ps)%nat -> (S k <= fuel)%nat ->
    dump_walk fuel (chain ps) i err = Some (err +:+ dump_text (drop i ps)).
Proof.
  induction k as [|k IH]; intros i fuel err Hik Hfuel;
    (destruct fuel as [|fuel]; [lia|]); cbn [dump_walk];
    (destruct (lookup_lt_is_Some_2 ps i) as [p Hp]; [lia|]);
    rewrite lookup_chain, Hp;
    cbn [fmap option_fmap option_map entry_at next path];
    rewrite (drop_S _ _ _ Hp); unfold dump_text; cbn [feed fold_right];
    fold (feed (drop (S i) ps)).
  - destruct (decide (S i < length ps)%nat); [lia|].
    rewrite drop_ge by lia. cbn. by rewrite ?sapp_assoc, ?sapp_nil_r.
  - destruct (decide (S i < length ps)%nat); [|lia].
    rewrite IH by lia. unfold dump_text. by rewrite ?sapp_assoc.
Qed.

(** The diagnostic dump prints the registered paths, oldest first, and
    raises [signal_caught]; it changes nothing else. *)
Lemma dump_paths_registry (w : world) (ps : list string) :
  registry_is w ps ->
  dump_paths w
  = Running (set_stderr (stderr w +:+ dump_text ps) (set_signal_caught 1 w)).
Proof.
  intros [Hh Ht _]. unfold dump_paths. rewrite Ht.
  unfold ptr. destruct (decide (0 < length ps)%nat) as [Hpos|Hz].
  - cbn [heap set_signal_caught stderr]. rewrite Hh, length_chain.
    destruct (length ps) as [|k] eqn:Hn; [lia|].
    rewrite (dump_walk_chain ps k 0 (S k)) by lia. done.
  - assert (ps = []) as -> by (apply length_zero_iff_nil; lia).
    cbn. rewrite sapp_nil_r. by destruct w.
Qed.

(** ** Lines and paths *)

Lemma int_of_small (z : Z) : - 2 ^ 31 <= z < 2 ^ 31 -> int_of z = z.
Proof.
  intros Hz. unfold int_of. rewrite Z.mod_small; lia.
Qed.

Lemma size_t_of_add (a c : Z) : size_t_of (size_t_of a + c) = size_t_of (a + c).
Proof. unfold size_t_of. apply Zplus_mod_idemp_l. Qed.

Lemma strlen_app (a b : string) : strlen (a +:+ b) = strlen a + strlen b.
Proof. unfold strlen. rewrite slength_app. lia. Qed.

Lemma strlen_nl : strlen nl = 1.
Proof. reflexivity. Qed.

Lemma split_line_line (p rest : string) :
  no_char NL p = true ->
  split_line (p +:+ nl +:+ rest) = Some (p +:+ nl, rest).
Proof.
  induction p as [|c p IH]; intros Hp; [reflexivity|].
  cbn [no_char] in Hp. apply andb_true_iff in Hp as [Hc Hp].
  rewrite !sapp_cons. cbn [split_line].
  destruct (Ascii.eqb c NL); [done|]. by rewrite IH.
Qed.

Lemma split_line_none (s : string) :
  no_char NL s = true -> split_line s = None.
Proof.
  induction s as [|c s IH]; intros Hs; [reflexivity|].
  cbn [no_char] in Hs. apply andb_true_iff in Hs as [Hc Hs].
  cbn [split_line]. destruct (Ascii.eqb c NL); [done|]. by rewrite IH.
Qed.

Lemma last_char_line (p : string) : last_char (p +:+ nl) = NL.
Proof.
  induction p as [|c p IH]; [reflexivity|].
  rewrite sapp_cons. cbn [last_char].
  destruct (p +:+ nl) eqn:Hp; [by destruct p|]. exact IH.
Qed.

Lemma last_char_plain (s : string) :
  no_char NL s = true -> Ascii.eqb (last_char s) NL = false.
Proof.
  induction s as [|c s IH]; intros Hs; [reflexivity|].
  cbn [no_char] in Hs. apply andb_true_iff in Hs as [Hc Hs].
  cbn [last_char]. destruct s as [|d s].
  - by destruct (Ascii.eqb c NL).
  - by apply IH.
Qed.

Lemma strncpy_app (p r : string) :
  no_char NUL p = true -> strncpy (p +:+ r) (String.length p) = p.
Proof.
  induction p as [|c p IH]; intros Hp; [by destruct r|].
  cbn [no_char] in Hp. apply andb_true_iff in Hp as [Hc Hp].
  rewrite sapp_cons. cbn [String.length strncpy].
  destruct (Ascii.eqb c NUL); [done|]. by rewrite IH.
Qed.

Lemma plain_parts (p : string) :
  plain p = true ->
  no_char NL p = true /\ no_char NUL p = true /\ strlen p < 2 ^ 31 - 1.
Proof.
  unfold plain. intros [[? ?]%andb_true_iff ?%Z.ltb_lt]%andb_true_iff. done.
Qed.

(** A terminated line decodes to its text without the newline. *)
Lemma decode_line (p : string) : plain p = true -> decode (p +:+ nl) = p.
Proof.
  intros (Hnl & Hnul & Hlen)%plain_parts. unfold decode, pathlen_of.
  rewrite last_char_line. change (Ascii.eqb NL NL) with true. cbn match.
  rewrite strlen_app, strlen_nl.
  assert (0 <= strlen p) by (unfold strlen; lia).
  rewrite int_of_small by lia.
  replace (strlen p + 1 + -1) with (strlen p) by lia.
  unfold strlen. rewrite Nat2Z.id. by apply strncpy_app.
Qed.

(** An unterminated rest decodes to itself. *)
Lemma decode_rest (p : string) : plain p = true -> decode p = p.
Proof.
  intros (Hnl & Hnul & Hlen)%plain_parts. unfold decode, pathlen_of.
  rewrite last_char_plain by done.
  assert (0 <= strlen p) by (unfold strlen; lia).
  rewrite Z.add_0_r, int_of_small by lia.
  unfold strlen. rewrite Nat2Z.id.
  rewrite <- (sapp_nil_r p) at 1. by apply strncpy_app.
Qed.

Lemma fgetln_line (p rest : string) (re : option Z) (ef : bool) :
  no_char NL p = true ->
  fgetln {| pending := p +:+ nl +:+ rest; read_error := re; eof_flag := ef |}
  = (Some (p +:+ nl), {| pending := rest; read_error := re; eof_flag := ef |}).
Proof. intros Hp. unfold fgetln. cbn [pending]. by rewrite split_line_line. Qed.

Lemma fgetln_shrinks (f f' : FILE) (line : string) :
  fgetln f = (Some line, f') ->
  (String.length (pending f') < String.length (pending f))%nat.
Proof.
  unfold fgetln.
  assert (Hsplit : forall s l r, split_line s = Some (l, r) ->
            (String.length r < String.length s)%nat).
  { induction s as [|c s IH]; intros l r; cbn [split_line]; [done|].
    destruct (Ascii.eqb c NL).
    - intros [= <- <-]. cbn. lia.
    - destruct (split_line s) as [[l' r']|] eqn:Hs; [|done].
      intros [= <- <-]. specialize (IH _ _ eq_refl). cbn. lia. }
  destruct (split_line (pending f)) as [[l r]|] eqn:Hs.
  - intros [= <- <-]. cbn. eauto.
  - destruct (read_error f); [done|].
    destruct (pending f) eqn:Hp; [done|].
    intros [= <- <-]. cbn. lia.
Qed.

(** ** Registration *)

Section Registration.
Context {H : SysHeaders} {E : OS}.

Lemma at_state_armed reg arm f w : armed (at_state reg arm f w) arm.
Proof. by split. Qed.

Lemma omap_udata_imap (ps : list string) :
  forall mk : nat -> string -> kevent,
    (forall i p, kev_udata (mk i p) = Some p) ->
    omap kev_udata (imap mk ps) = ps.
Proof.
  induction ps as [|p ps IH]; intros mk Hmk; [done|].
  cbn. rewrite Hmk. f_equal. apply IH. intros i q. apply Hmk.
Qed.

Lemma watches_kq (w : world) (ps : list string) :
  kq_changes w = input_change :: imap vnode_change ps -> watches w = ps.
Proof.
  intros Hk. unfold watches. rewrite Hk.
  cbn [omap list_omap input_change EV_SET kev_udata].
  by apply omap_udata_imap.
Qed.

Lemma watches_armed (w : world) (ps : list string) :
  armed w ps -> watches w = ps.
Proof. intros [Hk _]. by apply watches_kq. Qed.

End Registration.

(** ** The loop of [register_paths] *)

Section Loop.
Context {H : SysHeaders} {E : OS}.

Lemma register_path_open_fails (p : string) (w : world) (e : Z) :
  os_open p OPEN_MODE = SysFail e ->
  register_path p w
  = Exited e (set_stderr (stderr w +:+ err_text ("couldn't open " +:+ p) e)
                (set_errno e w)).
Proof. unfold register_path. by intros ->. Qed.

Lemma register_path_watch_fails (p : string) (w : world) (e : Z) :
  os_open p OPEN_MODE = SysOk ->
  os_watch (next_fd w) p = SysFail e ->
  register_path p w
  = Exited 1 (set_stderr (stderr w +:+ err_text ("couldn't monitor " +:+ p) e)
                (set_errno e (set_next_fd (next_fd w + 1) w))).
Proof. unfold register_path. by intros -> ->. Qed.

Lemma register_path_armed (reg arm : list string) (f : FILE) (w : world)
    (p : string) :
  os_open p OPEN_MODE = SysOk ->
  os_watch (first_fd + 1 + Z.of_nat (length arm)) p = SysOk ->
  register_path p (at_state reg arm f w)
  = Running (at_state reg (arm ++ [p]) f w).
Proof.
  intros Hopen Hwatch. unfold register_path. cbn [next_fd at_state].
  rewrite Hopen, Hwatch.
  unfold at_state, set_kq_changes, set_next_fd. cbn. do 2 f_equal.
  - rewrite imap_app. cbn. unfold vnode_change.
    by rewrite Nat.add_0_r.
  - rewrite length_app. cbn. lia.
Qed.

Lemma register_path_at (reg arm : list string) (f : FILE) (w : world)
    (p : string) :
  registrable p ->
  register_path p (at_state reg arm f w)
  = Running (at_state reg (arm ++ [p]) f w).
Proof. intros [Hopen Hwatch]. by apply register_path_armed. Qed.

Lemma watches_at_state (reg arm : list string) (f : FILE) (w : world) :
  watches (at_state reg arm f w) = arm.
Proof. apply watches_armed, at_state_armed. Qed.

(** One turn of the loop. *)
Lemma loop_turn (fuel : nat) (avail eof br : Z) (reg arm : list string)
    (f : FILE) (w : world) :
  register_paths_loop (S fuel) avail eof br (at_state reg arm f w)
  = if loop_guard br avail eof f then
      match fgetln f with
      | (None, f') =>
          if feof f' then Running (at_state reg arm f' w)
          else err 1 "couldn't read input"
                 (match read_error f' with
                  | Some e => set_errno e (at_state reg arm f' w)
                  | None => at_state reg arm f' w
                  end)
      | (Some line, f') =>
          bind (register_path (decode line)
                  (at_state (reg ++ [decode line]) arm f' w))
            (register_paths_loop fuel avail eof (size_t_of (br + strlen line)))
      end
    else Running (at_state reg arm f w).
Proof.
  cbn [register_paths_loop]. change (input (at_state reg arm f w)) with f.
  destruct (loop_guard br avail eof f); [|done].
  destruct (fgetln f) as [[line|] f']; [|done].
  destruct (append_entry_spec line (set_input f' (at_state reg arm f w)) reg)
    as [Happ Hlook]; [by split|].
  rewrite Happ, Hlook. done.
Qed.

(** The loop over a stream that starts with the valid lines [good]:
    either it stops before one of them because its condition fails, or
    it registers them all and goes on with what follows them. *)
Lemma loop_prefix (good : list string) :
  forall (fuel : nat) (avail eof b : Z) (ps : list string) (tail : string)
         (re : option Z) (ef : bool) (w : world),
    Forall valid_path good ->
    (String.length (feed good +:+ tail) < fuel)%nat ->
    (exists k, (k < length good)%nat
       /\ register_paths_loop fuel avail eof (size_t_of b)
            (at_paths ps {| pending := feed good +:+ tail;
                            read_error := re; eof_flag := ef |} w)
          = Running (at_paths (ps ++ take k good)
                       {| pending := feed (drop k good) +:+ tail;
                          read_error := re; eof_flag := ef |} w)
       /\ loop_guard (size_t_of (b + strlen (feed (take k good)))) avail eof
            {| pending := feed (drop k good) +:+ tail;
               read_error := re; eof_flag := ef |} = false)
    \/ (exists fuel', (String.length tail < fuel')%nat
       /\ register_paths_loop fuel avail eof (size_t_of b)
            (at_paths ps {| pending := feed good +:+ tail;
                            read_error := re; eof_flag := ef |} w)
          = register_paths_loop fuel' avail eof
              (size_t_of (b + strlen (feed good)))
              (at_paths (ps ++ good)
                 {| pending := tail; read_error := re; eof_flag := ef |} w)).
Proof.
  induction good as [|p good IH]; intros fuel avail eof b ps tail re ef w Hv Hf.
  - right. exists fuel. split; [exact Hf|].
    cbn [feed fold_right]. rewrite sapp_nil_l, app_nil_r.
    change (strlen "") with 0. by rewrite Z.add_0_r.
  - apply Forall_cons_1 in Hv as [[Hplain Hreg] Hv].
    destruct fuel as [|fuel]; [lia|].
    assert (Htext : feed (p :: good) +:+ tail
                    = p +:+ nl +:+ (feed good +:+ tail)).
    { cbn [feed fold_right]. fold (feed good). by rewrite !sapp_assoc. }
    unfold at_paths at 1 3. rewrite !loop_turn.
    destruct (loop_guard (size_t_of b) avail eof
                {| pending := feed (p :: good) +:+ tail;
                   read_error := re; eof_flag := ef |}) eqn:Hg.
    + rewrite Htext, fgetln_line by by apply plain_parts in Hplain as [? _].
      rewrite decode_line by done.
      rewrite register_path_at by done. cbn [bind].
      assert (Hlen : (String.length (feed good +:+ tail) < fuel)%nat).
      { rewrite Htext, !slength_app in Hf. rewrite slength_app.
        change (String.length nl) with 1%nat in Hf. lia. }
      rewrite size_t_of_add.
      destruct (IH fuel avail eof (b + strlen (p +:+ nl)) (ps ++ [p]) tail
                  re ef w Hv Hlen) as [(k & Hk & Hrun & Hstop)|(fuel' & Hfuel' & Hrun)].
      * left. exists (S k). split; [cbn; lia|].
        fold (at_paths (ps ++ [p])
                {| pending := feed good +:+ tail; read_error := re;
                   eof_flag := ef |} w).
        rewrite Hrun. cbn [take drop]. rewrite <- app_assoc. split; [done|].
        cbn [feed fold_right]. fold (feed (take k good)).
        rewrite <- Hstop. do 2 f_equal. rewrite !strlen_app. lia.
      * right. exists fuel'. split; [done|].
        fold (at_paths (ps ++ [p])
                {| pending := feed good +:+ tail; read_error := re;
                   eof_flag := ef |} w).
        rewrite Hrun, <- app_assoc. cbn [feed fold_right]. fold (feed good).
        do 2 f_equal. rewrite !strlen_app. lia.
    + left. exists 0%nat. split; [cbn; lia|]. cbn [take drop].
      rewrite app_nil_r. split; [done|].
      cbn [feed fold_right]. change (strlen "") with 0. by rewrite Z.add_0_r.
Qed.

(** The loop over the rest of a stream that ends, without a newline, in
    the plain text [last]: the rest, if it is not empty, is registered as
    the final path, and an empty rest yields no path. *)
Lemma loop_rest (last : string) (fuel : nat) (avail eof b : Z)
    (ps : list string) (ef : bool) (w : world) :
  plain last = true ->
  (last <> "" -> registrable last) ->
  (String.length last < fuel)%nat ->
  let f := {| pending := last; read_error := None; eof_flag := ef |} in
  (loop_guard (size_t_of b) avail eof f = false
   /\ register_paths_loop fuel avail eof (size_t_of b) (at_paths ps f w)
      = Running (at_paths ps f w))
  \/ (loop_guard (size_t_of b) avail eof f = true
      /\ register_paths_loop fuel avail eof (size_t_of b) (at_paths ps f w)
         = Running (at_paths (ps ++ (if decide (last = "") then [] else [last]))
                      {| pending := ""; read_error := None; eof_flag := true |}
                      w)).
Proof.
  intros Hplain Hreg Hfuel f.
  destruct fuel as [|fuel]; [lia|].
  unfold at_paths at 1 3. rewrite !loop_turn.
  destruct (loop_guard (size_t_of b) avail eof f) eqn:Hg; [right|by left].
  split; [done|].
  unfold fgetln, f. cbn [pending read_error].
  rewrite split_line_none by by apply plain_parts in Hplain as [? _].
  destruct last as [|c s] eqn:Hlast.
  - cbn [feof eof_flag]. by rewrite app_nil_r.
  - rewrite <- Hlast in *. rewrite decode_rest by done.
    destruct (decide (last = "")) as [?|_]; [congruence|].
    rewrite register_path_at by (apply Hreg; congruence). cbn [bind].
    destruct fuel as [|fuel]; [subst last; cbn in Hfuel; lia|].
    rewrite loop_turn.
    match goal with
    | |- context [loop_guard ?a ?b ?c ?d] => destruct (loop_guard a b c d)
    end; reflexivity.
Qed.

(** Whatever the stream holds, the loop returns or exits: on return the
    registry and the kqueue hold the same paths; on exit they do, or the
    registry holds one more path, the one that could not be registered.
    The report stream is not written. *)
Lemma loop_any (fuel : nat) :
  forall (avail eof br : Z) (ps : list string) (f : FILE) (w : world),
    (String.length (pending f) < fuel)%nat ->
    match register_paths_loop fuel avail eof br (at_paths ps f w) with
    | Running w' => exists qs f', w' = at_paths (ps ++ qs) f' w
    | Exited s w' =>
        output w' = output w
        /\ exists qs,
             (registry_is w' (ps ++ qs) /\ watches w' = ps ++ qs)
             \/ (exists p, registry_is w' (ps ++ qs ++ [p])
                           /\ watches w' = ps ++ qs)
    | Stuck => False
    end.
Proof.
  induction fuel as [|fuel IH]; intros avail eof br ps f w Hfuel; [lia|].
  unfold at_paths. rewrite loop_turn.
  destruct (loop_guard br avail eof f).
  2:{ exists [], f. by rewrite app_nil_r. }
  destruct (fgetln f) as [[line|] f'] eqn:Hget.
  - set (p := decode line).
    destruct (os_open p OPEN_MODE) as [|e] eqn:Hopen.
    + destruct (os_watch (first_fd + 1 + Z.of_nat (length ps)) p) as [|e]
        eqn:Hwatch.
      * rewrite register_path_armed by done. cbn [bind].
        apply fgetln_shrinks in Hget.
        specialize (IH avail eof (size_t_of (br + strlen line)) (ps ++ [p]) f' w).
        unfold at_paths in IH.
        destruct (register_paths_loop fuel avail eof _ _) as [w'|s w'|].
        -- destruct IH as (qs & f'' & ->); [lia|].
           exists (p :: qs), f''. by rewrite <- app_assoc.
        -- destruct IH as (Hout & qs & Hcase); [lia|]. split; [done|].
           exists (p :: qs).
           destruct Hcase as [[Hr Hw]|(p0 & Hr & Hw)];
             [left|right; exists p0]; rewrite <- ?app_assoc in Hr, Hw; done.
        -- apply IH. lia.
      * rewrite (register_path_watch_fails _ _ e) by done. cbn [bind].
        split; [done|]. exists []. right. exists p. rewrite ?app_nil_r.
        split; [by split|]. by apply watches_kq.
    + rewrite (register_path_open_fails _ _ e) by done. cbn [bind].
      split; [done|]. exists []. right. exists p. rewrite ?app_nil_r.
      split; [by split|]. by apply watches_kq.
  - destruct (feof f').
    + exists [], f'. by rewrite app_nil_r.
    + split; [by destruct (read_error f')|]. exists []. left.
      rewrite ?app_nil_r.
      split; [by destruct (read_error f')|].
      apply watches_kq. by destruct (read_error f').
Qed.

End Loop.

(** ** The watcher loop *)

Section Watcher.
Context {H : SysHeaders} {E : OS}.

Lemma init_running (inp : FILE) (garbage : kevent) :
  os_kqueue = SysOk -> os_watch_input = SysOk ->
  watcher_loop_init (boot inp garbage)
  = Running (at_paths [] inp (boot inp garbage)).
Proof.
  intros Hkq Hin. unfold watcher_loop_init. rewrite Hkq, Hin.
  unfold at_paths, at_state, boot, set_kq_changes, set_next_fd. cbn.
  by rewrite Z.add_0_r.
Qed.

(** One turn of the loop from a state in which registry and kqueue agree:
    it leaves the registry, the kqueue and the control stream alone, or it
    exits on a failed wait, or it calls [register_paths]. *)
Lemma loop_iteration_at (P : outcome -> Prop) (ps : list string) (f : FILE)
    (w : world) (wk : wakeup) :
  (forall w', P (Running (at_paths ps f w'))) ->
  (forall s w', P (Exited s (at_paths ps f w'))) ->
  (forall avail eof w', P (register_paths avail eof (at_paths ps f w'))) ->
  P (loop_iteration wk (at_paths ps f w)).
Proof.
  intros Hrun Hexit Hreg. unfold loop_iteration.
  assert (Hdispatch : forall w', P (dispatch (at_paths ps f w'))).
  { intros w'. unfold dispatch.
    destruct (_ && _); [apply Hreg|].
    rewrite handle_event_line.
    apply (Hrun (set_output _ w')). }
  assert (Hwait : forall wk0 w0, exists r w',
            kevent_wait wk0 (at_paths ps f w0) = Some (r, at_paths ps f w')).
  { induction wk0 as [ev| |e|wk0 IH]; intros w0; cbn [kevent_wait].
    - by exists 1, (set_k_event ev w0).
    - rewrite (dump_paths_registry _ ps) by by split.
      by exists (-1), (set_errno EINTR
                        (set_stderr (stderr w0 +:+ dump_text ps)
                           (set_signal_caught 1 w0))).
    - by exists (-1), (set_errno e w0).
    - rewrite (dump_paths_registry _ ps) by by split.
      apply (IH (set_stderr (stderr w0 +:+ dump_text ps)
                   (set_signal_caught 1 w0))). }
  destruct (Hwait wk (set_signal_caught 0 w)) as (r & w' & Hw).
  change (set_signal_caught 0 (at_paths ps f w))
    with (at_paths ps f (set_signal_caught 0 w)).
  rewrite Hw.
  assert (Hgo : P (if truthy (signal_caught (at_paths ps f w'))
                   then Running (at_paths ps f w')
                   else dispatch (at_paths ps f w'))).
  { destruct (truthy _); [apply Hrun|apply Hdispatch]. }
  destruct (r =? -1); [|exact Hgo].
  destruct (negb (errno_ (at_paths ps f w') =? EINTR)); [|exact Hgo].
  apply (Hexit 1 (set_stderr _ w')).
Qed.

(** The wait of a turn from such a state, with the runs of the handler:
    the call returns -1 exactly when it fails, [errno] is its error code,
    the flag is raised when the handler has run, the handler has written
    to the diagnostic stream only. *)
Lemma kevent_wait_at (ps : list string) (f : FILE) (wk : wakeup) :
  forall w0, exists w',
    kevent_wait wk (at_paths ps f w0)
    = Some (match wait_error wk with Some _ => -1 | None => 1 end,
            at_paths ps f w')
    /\ output w' = output w0
    /\ (exists t, stderr w' = stderr w0 +:+ t)
    /\ (forall e, wait_error wk = Some e -> errno_ w' = e)
    /\ (trigger_handled wk = true \/ signal_caught w0 = 1 ->
        signal_caught w' = 1).
Proof.
  induction wk as [ev| |e|wk IH]; intros w0;
    cbn [kevent_wait wait_error trigger_handled].
  - exists (set_k_event ev w0). split; [done|]. split; [done|].
    split; [exists ""; by rewrite sapp_nil_r|]. split; [done|].
    by intros [?|?].
  - rewrite (dump_paths_registry _ ps) by by split.
    exists (set_errno EINTR (set_stderr (stderr w0 +:+ dump_text ps)
                               (set_signal_caught 1 w0))).
    split; [done|]. split; [done|]. split; [by eexists|].
    split; [by intros e [= <-]|done].
  - exists (set_errno e w0). split; [done|]. split; [done|].
    split; [exists ""; by rewrite sapp_nil_r|].
    split; [by intros e' [= <-]|]. by intros [?|?].
  - rewrite (dump_paths_registry _ ps) by by split.
    destruct (IH (set_stderr (stderr w0 +:+ dump_text ps)
                    (set_signal_caught 1 w0)))
      as (w' & Hk & Ho & (t & Ht) & He & Hs).
    exists w'. split; [exact Hk|]. split; [exact Ho|].
    cbn [output stderr set_stderr set_signal_caught] in Ho, Ht.
    split; [exists (dump_text ps +:+ t); by rewrite Ht, sapp_assoc|].
    split; [exact He|]. intros _. apply Hs. by right.
Qed.

(** A wait that fails with an error code other than [EINTR] ends the
    process, whether or not the handler has run in the turn. *)
Lemma failed_wait_fatal (ps : list string) (f : FILE) (w : world)
    (wk : wakeup) (e : Z) :
  wait_error wk = Some e -> e <> EINTR ->
  exists w',
    loop_iteration wk (at_paths ps f w) = Exited 1 (at_paths ps f w')
    /\ output w' = output w
    /\ exists pre, stderr w' = pre +:+ err_text "error checking kqueue" e.
Proof.
  intros Hwk He. unfold loop_iteration.
  change (set_signal_caught 0 (at_paths ps f w))
    with (at_paths ps f (set_signal_caught 0 w)).
  destruct (kevent_wait_at ps f wk (set_signal_caught 0 w))
    as (w' & -> & Ho & _ & Herr & _).
  rewrite Hwk. change (-1 =? -1) with true. cbn iota.
  change (errno_ (at_paths ps f w')) with (errno_ w').
  rewrite (Herr e Hwk).
  destruct (Z.eqb_spec e EINTR) as [?|_]; [done|]. cbn [negb bind err].
  exists (set_stderr (stderr w' +:+ err_text "error checking kqueue" (errno_ w'))
            w').
  split; [done|]. split; [done|]. exists (stderr w'). cbn.
  by rewrite (Herr e Hwk).
Qed.

(** A turn in which the handler has run and the call has not failed
    with another error code than [EINTR] is given up at line 201:
    nothing is dispatched. *)
Lemma handled_turn_discarded (ps : list string) (f : FILE) (w : world)
    (wk : wakeup) :
  trigger_handled wk = true ->
  (forall e, wait_error wk = Some e -> e = EINTR) ->
  exists w',
    loop_iteration wk (at_paths ps f w) = Running (at_paths ps f w')
    /\ output w' = output w
    /\ exists t, stderr w' = stderr w +:+ t.
Proof.
  intros Hh Hwk. unfold loop_iteration.
  change (set_signal_caught 0 (at_paths ps f w))
    with (at_paths ps f (set_signal_caught 0 w)).
  destruct (kevent_wait_at ps f wk (set_signal_caught 0 w))
    as (w' & -> & Ho & Ht & Herr & Hs).
  exists w'. split; [|by split].
  assert (Hgo : (if truthy (signal_caught (at_paths ps f w'))
                 then Running (at_paths ps f w')
                 else dispatch (at_paths ps f w'))
                = Running (at_paths ps f w')).
  { change (signal_caught (at_paths ps f w')) with (signal_caught w').
    by rewrite Hs by by left. }
  destruct (wait_error wk) as [e|] eqn:Hw.
  - change (-1 =? -1) with true. cbn iota.
    change (errno_ (at_paths ps f w')) with (errno_ w').
    rewrite (Herr e eq_refl), (Hwk e eq_refl), Z.eqb_refl. exact Hgo.
  - change (1 =? -1) with false. exact Hgo.
Qed.

Lemma register_paths_in_step (avail eof : Z) (ps : list string) (f : FILE)
    (w : world) :
  in_step (register_paths avail eof (at_paths ps f w)).
Proof.
  unfold register_paths.
  pose proof (loop_any (S (String.length (pending f))) avail eof 0 ps f w) as Hl.
  change (input (at_paths ps f w)) with f.
  destruct (register_paths_loop _ _ _ _ _) as [w'|s w'|]; cbn [in_step].
  - destruct Hl as (qs & f' & ->); [lia|]. by exists (ps ++ qs), f'.
  - destruct Hl as (_ & qs & [[Hr Hw]|(p & Hr & Hw)]); [lia|..].
    + exists (ps ++ qs). split; [done|by left].
    + exists (ps ++ qs). split; [done|right]. exists p. by rewrite <- app_assoc.
  - apply Hl. lia.
Qed.

Lemma run_in_step (ws : list wakeup) :
  forall o, in_step o -> in_step (run ws o).
Proof.
  induction ws as [|wk ws IH]; intros o Ho; [done|].
  destruct o as [w|s w|]; cbn [run]; [|done..].
  destruct Ho as (ps & f & ->). apply IH.
  apply loop_iteration_at.
  - intros w'. by exists ps, f.
  - intros s w'. exists ps. split; [apply watches_at_state|left; by split].
  - intros avail eof w'. apply register_paths_in_step.
Qed.

Lemma watcher_loop_in_step (inp : FILE) (garbage : kevent) (ws : list wakeup) :
  in_step (watcher_loop inp garbage ws).
Proof.
  unfold watcher_loop. apply run_in_step. unfold watcher_loop_init.
  destruct os_kqueue as [|e] eqn:Hkq.
  - destruct os_watch_input as [|e] eqn:Hin.
    + exists [], inp. unfold at_paths, at_state, boot; cbn.
      by rewrite Z.add_0_r.
    + exists []. split; [done|left; by split].
  - exists []. split; [done|left; by split].
Qed.

(** C4, as amended. Whenever the loop is between two turns, the paths in
    the registry are exactly the paths armed with the kqueue, in the same
    order; when the process has exited, they are the same, or the registry
    holds one more path at its end: the one whose registration failed.
    (A path is appended to the registry first and armed afterwards.) *)
Theorem registry_matches_watches (inp : FILE) (garbage : kevent)
    (ws : list wakeup) :
  match watcher_loop inp garbage ws with
  | Running w => iterate w = Some (watches w)
  | Exited _ w =>
      iterate w = Some (watches w)
      \/ exists p, iterate w = Some (watches w ++ [p])
  | Stuck => False
  end.
Proof.
  pose proof (watcher_loop_in_step inp garbage ws) as Hs.
  destruct (watcher_loop inp garbage ws) as [w|s w|]; cbn [in_step] in Hs.
  - destruct Hs as (ps & f & ->). unfold at_paths.
    rewrite watches_at_state. apply iterate_registry. by split.
  - destruct Hs as (ps & <- & [Hr|[p Hr]]).
    + left. by apply iterate_registry.
    + right. exists p. by apply iterate_registry.
  - done.
Qed.

End Watcher.

(** ** Streams of valid lines *)

Section ValidStreams.
Context {H : SysHeaders} {E : OS}.

Lemma strlen_nonneg (s : string) : 0 <= strlen s.
Proof. unfold strlen. lia. Qed.

Lemma strlen_feed_pos (ps : list string) : ps <> [] -> 0 < strlen (feed ps).
Proof.
  destruct ps as [|p ps]; [done|]. intros _. cbn [feed fold_right].
  rewrite !strlen_app, strlen_nl.
  pose proof (strlen_nonneg p). pose proof (strlen_nonneg (feed ps)).
  fold (feed ps). lia.
Qed.

Lemma feed_empty (ps : list string) : feed ps = "" -> ps = [].
Proof.
  intros Hf. destruct ps as [|p ps]; [done|].
  assert (Hpos : 0 < strlen (feed (p :: ps))) by by apply strlen_feed_pos.
  rewrite Hf in Hpos. unfold strlen in Hpos. cbn in Hpos. lia.
Qed.

Lemma guard_eof (br avail eof : Z) (s : string) (re : option Z) :
  truthy eof = true ->
  loop_guard br avail eof {| pending := s; read_error := re; eof_flag := false |}
  = true.
Proof. intros He. unfold loop_guard, feof. cbn. rewrite He. apply orb_true_r. Qed.

(** With the end of the stream signaled, the loop reads to the real end
    of the stream, whatever byte count was reported. *)
Lemma loop_valid_eof (good : list string) (last : string) (fuel : nat)
    (avail eof b : Z) (ps : list string) (w : world) :
  truthy eof = true ->
  Forall valid_path good -> plain last = true ->
  (last <> "" -> registrable last) ->
  (String.length (feed good +:+ last) < fuel)%nat ->
  register_paths_loop fuel avail eof (size_t_of b)
    (at_paths ps {| pending := feed good +:+ last; read_error := None;
                    eof_flag := false |} w)
  = Running (at_paths (ps ++ good ++ rest_path last)
               {| pending := ""; read_error := None; eof_flag := true |} w).
Proof.
  intros He Hgood Hplain Hreg Hfuel.
  destruct (loop_prefix good fuel avail eof b ps last None false w Hgood Hfuel)
    as [(k & _ & _ & Hstop)|(fuel' & Hfuel' & ->)].
  { by rewrite guard_eof in Hstop. }
  destruct (loop_rest last fuel' avail eof (b + strlen (feed good)) (ps ++ good)
              false w Hplain Hreg Hfuel') as [[Hstop _]|[_ ->]].
  { by rewrite guard_eof in Hstop. }
  by rewrite <- app_assoc.
Qed.

(** With a reported byte count that covers the stream, the loop reads
    all of it. *)
Lemma loop_valid_count (good : list string) (last : string) (fuel : nat)
    (avail eof b : Z) (ps : list string) (ef : bool) (w : world) :
  0 <= b -> b + strlen (feed good +:+ last) <= size_t_of avail ->
  Forall valid_path good -> plain last = true ->
  (last <> "" -> registrable last) ->
  (String.length (feed good +:+ last) < fuel)%nat ->
  exists f', pending f' = "" /\ read_error f' = None
    /\ register_paths_loop fuel avail eof (size_t_of b)
         (at_paths ps {| pending := feed good +:+ last; read_error := None;
                         eof_flag := ef |} w)
       = Running (at_paths (ps ++ good ++ rest_path last) f' w).
Proof.
  intros Hb Hcount Hgood Hplain Hreg Hfuel.
  assert (Hlt : size_t_of avail < 2 ^ 64)
    by (unfold size_t_of; apply Z.mod_pos_bound; lia).
  rewrite strlen_app in Hcount.
  pose proof (strlen_nonneg last) as Hlast.
  destruct (loop_prefix good fuel avail eof b ps last None ef w Hgood Hfuel)
    as [(k & Hk & _ & Hstop)|(fuel' & Hfuel' & ->)].
  { exfalso. unfold loop_guard in Hstop.
    apply orb_false_iff in Hstop as [Hstop%Z.ltb_ge _].
    assert (Hsplit : strlen (feed good)
              = strlen (feed (take k good)) + strlen (feed (drop k good))).
    { by rewrite <- strlen_app, <- feed_app, take_drop. }
    assert (0 < strlen (feed (drop k good))).
    { apply strlen_feed_pos. intros Hd%(f_equal length).
      rewrite length_drop in Hd. cbn in Hd. lia. }
    pose proof (strlen_nonneg (feed (take k good))).
    unfold size_t_of at 2 in Hstop. rewrite Z.mod_small in Hstop by lia. lia. }
  destruct (loop_rest last fuel' avail eof (b + strlen (feed good)) (ps ++ good)
              ef w Hplain Hreg Hfuel') as [[Hstop ->]|[_ ->]].
  - unfold loop_guard in Hstop.
    apply orb_false_iff in Hstop as [Hstop%Z.ltb_ge _].
    pose proof (strlen_nonneg (feed good)).
    unfold size_t_of at 2 in Hstop. rewrite Z.mod_small in Hstop by lia.
    assert (last = "") as ->.
    { destruct last; [done|]. unfold strlen in *. cbn in *. lia. }
    exists {| pending := ""; read_error := None; eof_flag := ef |}.
    split; [done|]. split; [done|].
    change (rest_path "") with (@nil string). by rewrite app_nil_r.
  - exists {| pending := ""; read_error := None; eof_flag := true |}.
    split; [done|]. split; [done|]. by rewrite <- app_assoc.
Qed.

(** A line that cannot be opened, after the valid lines [good] and with
    the end of the stream signaled: the loop registers [good], appends the
    path to the registry and exits in [register_path]. *)
Lemma loop_bad_line (good : list string) (bad rest : string) (e : Z)
    (fuel : nat) (avail eof b : Z) (ps : list string) (re : option Z)
    (w : world) :
  truthy eof = true ->
  Forall valid_path good -> plain bad = true ->
  os_open bad OPEN_MODE = SysFail e ->
  (String.length (feed good +:+ bad +:+ nl +:+ rest) < fuel)%nat ->
  register_paths_loop fuel avail eof (size_t_of b)
    (at_paths ps {| pending := feed good +:+ bad +:+ nl +:+ rest;
                    read_error := re; eof_flag := false |} w)
  = Exited e
      (set_stderr (stderr w +:+ err_text ("couldn't open " +:+ bad) e)
         (set_errno e
            (at_state (ps ++ good ++ [bad]) (ps ++ good)
               {| pending := rest; read_error := re; eof_flag := false |} w))).
Proof.
  intros He Hgood Hplain Hopen Hfuel.
  destruct (loop_prefix good fuel avail eof b ps (bad +:+ nl +:+ rest) re false
              w Hgood Hfuel)
    as [(k & _ & _ & Hstop)|(fuel' & Hfuel' & ->)].
  { by rewrite guard_eof in Hstop. }
  destruct fuel' as [|fuel']; [lia|].
  unfold at_paths. rewrite loop_turn, guard_eof by done.
  rewrite fgetln_line by by apply plain_parts in Hplain as [? _].
  rewrite decode_line by done.
  rewrite (register_path_open_fails _ _ e) by done. cbn [bind].
  by rewrite <- app_assoc.
Qed.

End ValidStreams.

(** ** Submitting paths *)

Section Submission.
Context {H : SysHeaders} {E : OS}.

Lemma registered_at (ps : list string) (f : FILE) (w : world) :
  registered (at_paths ps f w) ps.
Proof.
  split; [done|]. split; [|split].
  - unfold at_paths. by rewrite watches_at_state.
  - apply iterate_registry. by split.
  - apply dump_paths_registry. by split.
Qed.

Lemma loop_iteration_input (n flags : Z) (ps : list string) (f : FILE)
    (w : world) :
  loop_iteration (Ready (input_event n flags)) (at_paths ps f w)
  = register_paths (int_of n) (Z.land flags EV_EOF)
      (at_paths ps f (set_k_event (input_event n flags) (set_signal_caught 0 w))).
Proof.
  unfold loop_iteration. cbn [kevent_wait].
  change (1 =? -1) with false. cbn [bind]. unfold dispatch.
  cbn [k_event set_k_event kev_ident kev_filter kev_data kev_flags
       input_event signal_caught set_signal_caught at_paths at_state].
  by rewrite !Z.eqb_refl.
Qed.

Lemma register_paths_progress (ps : list string) (k : nat) (ef : bool)
    (avail eof : Z) (w : world) :
  Forall valid_path ps ->
  progress ps
    (register_paths avail eof
       (at_paths (take k ps)
          {| pending := feed (drop k ps); read_error := None; eof_flag := ef |}
          w)).
Proof.
  intros Hv. unfold register_paths. cbn [input at_paths at_state pending].
  fold (at_paths (take k ps)
          {| pending := feed (drop k ps); read_error := None; eof_flag := ef |}
          w).
  change 0 with (size_t_of 0).
  rewrite <- (sapp_nil_r (feed (drop k ps))).
  assert (Hvd : Forall valid_path (drop k ps)) by by apply Forall_drop.
  destruct (loop_prefix (drop k ps) (S (String.length (feed (drop k ps) +:+ "")))
              avail eof 0 (take k ps) "" None ef w Hvd)
    as [(j & _ & -> & _)|(fuel' & Hfuel' & ->)]; [lia|..].
  - exists (k + j)%nat, ef.
    rewrite take_take_drop, drop_drop, sapp_nil_r. done.
  - rewrite take_drop.
    destruct (loop_rest "" fuel' avail eof (0 + strlen (feed (drop k ps)))
                ps ef w eq_refl) as [[_ ->]|[_ ->]]; [done|done|..].
    + exists (length ps), ef. by rewrite firstn_all, drop_all.
    + exists (length ps), true.
      change (rest_path "") with (@nil string).
      by rewrite app_nil_r, firstn_all, drop_all.
Qed.

Lemma run_progress (ps : list string) (ws : list wakeup) :
  Forall valid_path ps ->
  forall o, progress ps o -> progress ps (run ws o).
Proof.
  intros Hv. induction ws as [|wk ws IH]; intros o Ho; [done|].
  destruct o as [w|s w|]; cbn [run]; [|done..].
  destruct Ho as (k & ef & ->). apply IH.
  apply loop_iteration_at.
  - intros w'. by exists k, ef.
  - done.
  - intros avail eof w'. by apply register_paths_progress.
Qed.

(** The first wakeup, when it reports all the bytes of the stream or its
    end: the loop registers every path and changes nothing else. *)
Lemma first_wakeup (ps : list string) (garbage : kevent) (n flags : Z) :
  os_kqueue = SysOk -> os_watch_input = SysOk ->
  Forall valid_path ps ->
  strlen (feed ps) <= size_t_of (int_of n)
  \/ truthy (Z.land flags EV_EOF) = true ->
  let inp := {| pending := feed ps; read_error := None; eof_flag := false |} in
  exists f',
    pending f' = ""
    /\ watcher_loop inp garbage [Ready (input_event n flags)]
       = Running (at_paths ps f'
                    (set_k_event (input_event n flags)
                       (set_signal_caught 0 (boot inp garbage)))).
Proof.
  intros Hkq Hin Hv Hcover inp. unfold watcher_loop.
  rewrite init_running by done. cbn [run].
  rewrite loop_iteration_input. unfold register_paths.
  cbn [input at_paths at_state pending inp].
  match goal with
  | |- context [register_paths_loop ?fu ?a ?e 0 ?w0] =>
      change (register_paths_loop fu a e 0 w0)
        with (register_paths_loop fu a e (size_t_of 0)
                (at_paths [] {| pending := feed ps; read_error := None;
                                eof_flag := false |}
                   (set_k_event (input_event n flags)
                      (set_signal_caught 0 (boot inp garbage)))))
  end.
  rewrite <- (sapp_nil_r (feed ps)).
  destruct Hcover as [Hcount|Heof].
  - destruct (loop_valid_count ps "" (S (String.length (feed ps +:+ "")))
                (int_of n) (Z.land flags EV_EOF) 0 [] false
                (set_k_event (input_event n flags)
                   (set_signal_caught 0 (boot inp garbage))))
      as (f' & Hf' & _ & ->); [lia| |done|done|done|lia|].
    { rewrite strlen_app. change (strlen "") with 0. lia. }
    change (rest_path "") with (@nil string). rewrite app_nil_r.
    by exists f'.
  - rewrite loop_valid_eof by (done || lia).
    change (rest_path "") with (@nil string). rewrite app_nil_r.
    by exists {| pending := ""; read_error := None; eof_flag := true |}.
Qed.

(** C1. A control stream submits the valid paths [ps], one per line.  A
    wakeup that reports all its bytes, or the end of the stream, makes the
    loop create exactly one watch registration per path, and the registry,
    iterated from its anchor as the diagnostic dump does, yields the paths
    in the order of submission, oldest first.  The same holds after any
    sequence of wakeups once the loop has read the stream to its end. *)
Theorem paths_registered_in_order (ps : list string) (garbage : kevent) :
  os_kqueue = SysOk -> os_watch_input = SysOk ->
  Forall valid_path ps ->
  let inp := {| pending := feed ps; read_error := None; eof_flag := false |} in
  (forall n flags : Z,
     strlen (feed ps) <= size_t_of (int_of n)
     \/ truthy (Z.land flags EV_EOF) = true ->
     exists w,
       watcher_loop inp garbage [Ready (input_event n flags)] = Running w
       /\ registered w ps)
  /\ (forall (ws : list wakeup) (w : world),
        watcher_loop inp garbage ws = Running w ->
        pending (input w) = "" ->
        registered w ps).
Proof.
  intros Hkq Hin Hv inp. split.
  - intros n flags Hcover.
    destruct (first_wakeup ps garbage n flags Hkq Hin Hv Hcover) as (f' & _ & Hrun).
    eexists. split; [exact Hrun|]. apply registered_at.
  - intros ws w Hrun Hend.
    assert (Hp : progress ps (watcher_loop inp garbage ws)).
    { unfold watcher_loop. apply run_progress; [done|].
      rewrite init_running by done. exists 0%nat, false. done. }
    rewrite Hrun in Hp. destruct Hp as (k & ef & Hw).
    rewrite Hw in Hend. cbn in Hend. apply feed_empty in Hend.
    rewrite Hw. rewrite <- (take_drop k ps) at 3. rewrite Hend, app_nil_r.
    apply registered_at.
Qed.

End Submission.

(** ** Change events and wait failures *)

Section Events.
Context {H : SysHeaders} {E : OS}.



(** C6. When the diagnostic trigger interrupts the blocking wait, the
    turn of the loop is given up: the registry is dumped by the handler,
    nothing is dispatched (the report stream, the control stream, the
    registry and the kqueue are as before), the process does not exit and
    the loop waits again; so is every turn in which the call fails with
    [EINTR] and the handler has run.  A wait that fails with an error code
    other than [EINTR] ends the process with exit status 1 and a message,
    whether or not the handler has run in the turn. *)
Theorem interrupted_wait_retried (inp : FILE) (garbage : kevent)
    (ws : list wakeup) (w : world) :
  watcher_loop inp garbage ws = Running w ->
  (exists ps,
     iterate w = Some ps
     /\ loop_iteration Interrupted w
        = Running (set_errno EINTR
                     (set_stderr (stderr w +:+ dump_text ps)
                        (set_signal_caught 1 w)))
     /\ forall ws', run (Interrupted :: ws') (Running w)
                    = run ws' (Running (set_errno EINTR
                                          (set_stderr (stderr w +:+ dump_text ps)
                                             (set_signal_caught 1 w)))))
  /\ (forall e, e <> EINTR ->
        loop_iteration (WaitFailed e) w
        = Exited 1 (set_stderr
                      (stderr w +:+ err_text "error checking kqueue" e)
                      (set_errno e (set_signal_caught 0 w)))
        /\ exit_status 1 <> 0)
  /\ (forall wk e, wait_error wk = Some e -> e <> EINTR ->
        exists w',
          loop_iteration wk w = Exited 1 w'
          /\ output w' = output w
          /\ exists pre, stderr w' = pre +:+ err_text "error checking kqueue" e)
  /\ (forall wk, trigger_handled wk = true -> wait_error wk = Some EINTR ->
        exists w',
          loop_iteration wk w = Running w'
          /\ output w' = output w /\ input w' = input w
          /\ kq_changes w' = kq_changes w /\ iterate w' = iterate w).
Proof.
  intros Hrun.
  pose proof (watcher_loop_in_step inp garbage ws) as Hs.
  rewrite Hrun in Hs. destruct Hs as (ps & f & Hw).
  assert (Hit : forall w0, iterate (at_paths ps f w0) = Some ps).
  { intros w0. apply iterate_registry. by split. }
  split; [|split; [|split]]; cycle 2.
  { intros wk e Hwk He. rewrite Hw.
    destruct (failed_wait_fatal ps f w wk e Hwk He) as (w' & -> & Ho & Herr).
    by exists (at_paths ps f w'). }
  { intros wk Hh Hwk. rewrite Hw.
    destruct (handled_turn_discarded ps f w wk Hh) as (w' & -> & Ho & _).
    { intros e He. congruence. }
    exists (at_paths ps f w'). split; [done|]. split; [done|].
    split; [done|]. split; [done|]. by rewrite !Hit. }
  - clear Hit.
    assert (Hr : registry_is w ps) by (rewrite Hw; by split).
    exists ps. split; [by apply iterate_registry|].
    assert (Hit : loop_iteration Interrupted w
        = Running (set_errno EINTR
                     (set_stderr (stderr w +:+ dump_text ps)
                        (set_signal_caught 1 w)))).
    { unfold loop_iteration. cbn [kevent_wait].
      rewrite (dump_paths_registry _ ps) by (destruct Hr; by split).
      cbn -[Z.eqb]. rewrite !Z.eqb_refl. done. }
    split; [exact Hit|]. intros ws'. cbn [run]. by rewrite Hit.
  - intros e He. split; [|done].
    unfold loop_iteration. cbn [kevent_wait].
    cbn -[Z.eqb err]. destruct (Z.eqb_spec e EINTR) as [?|_]; [done|].
    reflexivity.
Qed.

End Events.

(** ** Fatal errors *)

Section Failures.
Context {H : SysHeaders} {E : OS}.

Lemma exit_status_errno (e : Z) : 0 < e < 256 -> exit_status e <> 0.
Proof.
  intros He. unfold exit_status. change 255 with (Z.ones 8).
  rewrite Z.land_ones by lia. rewrite Z.mod_small; lia.
Qed.

Lemma run_exited (ws : list wakeup) (s : Z) (w : world) :
  run ws (Exited s w) = Exited s w.
Proof. by destruct ws. Qed.

(** C7. A path that cannot be opened, or cannot be armed with the
    kqueue, ends the process at once: [register_path] exits with a status
    that is not zero and a message that names the path on the diagnostic
    stream; the rest of [register_paths] and every later turn of the loop
    are not run, so the report stream, to which no line for the path was
    written, is never written again, and the kqueue holds no registration
    for the path.  From the start of the program: when the line of such a
    path follows valid lines, the valid paths are registered, the process
    exits on the path, and nothing was reported. *)
Theorem unregistrable_path_is_fatal (p : string) (w : world) :
  (forall e, os_open p OPEN_MODE = SysFail e -> 0 < e < 256 ->
     exists w',
       register_path p w = Exited e w'
       /\ exit_status e <> 0
       /\ stderr w' = stderr w +:+ err_text ("couldn't open " +:+ p) e
       /\ output w' = output w /\ kq_changes w' = kq_changes w
       /\ (forall k, bind (register_path p w) k = Exited e w')
       /\ (forall ws, run ws (Exited e w') = Exited e w'))
  /\ (forall e, os_open p OPEN_MODE = SysOk ->
        os_watch (next_fd w) p = SysFail e ->
        exists w',
          register_path p w = Exited 1 w'
          /\ exit_status 1 <> 0
          /\ stderr w' = stderr w +:+ err_text ("couldn't monitor " +:+ p) e
          /\ output w' = output w /\ kq_changes w' = kq_changes w
          /\ (forall k, bind (register_path p w) k = Exited 1 w')
          /\ (forall ws, run ws (Exited 1 w') = Exited 1 w'))
  /\ (forall (fuel : nat) (avail eof br : Z) (ps : list string)
             (f f' : FILE) (line : string) (w0 : world) (s : Z) (w' : world),
        loop_guard br avail eof f = true ->
        fgetln f = (Some line, f') ->
        register_path (decode line) (at_state (ps ++ [decode line]) ps f' w0)
        = Exited s w' ->
        register_paths_loop (S fuel) avail eof br (at_paths ps f w0)
        = Exited s w')
  /\ (forall (good : list string) (rest : string) (e : Z) (garbage : kevent)
             (n flags : Z) (ws : list wakeup),
        os_kqueue = SysOk -> os_watch_input = SysOk ->
        Forall valid_path good -> plain p = true ->
        os_open p OPEN_MODE = SysFail e -> 0 < e < 256 ->
        truthy (Z.land flags EV_EOF) = true ->
        exists w',
          watcher_loop
            {| pending := feed good +:+ p +:+ nl +:+ rest; read_error := None;
               eof_flag := false |}
            garbage (Ready (input_event n flags) :: ws)
          = Exited e w'
          /\ exit_status e <> 0
          /\ output w' = ""
          /\ stderr w' = err_text ("couldn't open " +:+ p) e
          /\ watches w' = good
          /\ iterate w' = Some (good ++ [p])).
Proof.
  split; [|split; [|split]].
  - intros e Hopen He. eexists. split; [by apply register_path_open_fails|].
    split; [by apply exit_status_errno|].
    rewrite (register_path_open_fails _ _ e) by done.
    repeat split; try done. intros ws. apply run_exited.
  - intros e Hopen Hwatch. eexists.
    split; [by apply register_path_watch_fails|]. split; [done|].
    rewrite (register_path_watch_fails _ _ e) by done.
    repeat split; try done. intros ws. apply run_exited.
  - intros fuel avail eof br ps f f' line w0 s w' Hg Hget Hfail.
    unfold at_paths. by rewrite loop_turn, Hg, Hget, Hfail.
  - intros good rest e garbage n flags ws Hkq Hin Hgood Hplain Hopen He Heof.
    unfold watcher_loop. rewrite init_running by done. cbn [run].
    rewrite loop_iteration_input. unfold register_paths.
    cbn [input at_paths at_state pending].
    match goal with
    | |- context [register_paths_loop ?fu ?a ?ef 0 ?w0] =>
        change (register_paths_loop fu a ef 0 w0)
          with (register_paths_loop fu a ef (size_t_of 0)
                  (at_paths []
                     {| pending := feed good +:+ p +:+ nl +:+ rest;
                        read_error := None; eof_flag := false |}
                     (set_k_event (input_event n flags)
                        (set_signal_caught 0
                           (boot {| pending := feed good +:+ p +:+ nl +:+ rest;
                                    read_error := None; eof_flag := false |}
                              garbage)))))
    end.
    rewrite (loop_bad_line good p rest e) by (done || lia).
    rewrite run_exited. eexists. split; [done|].
    split; [by apply exit_status_errno|]. split; [done|]. split; [done|].
    split.
    + by apply watches_kq.
    + apply iterate_registry. by split.
Qed.

(** C10. An empty line of the control stream is not skipped.  The turn
    of the loop that reads it decodes the empty path, appends it to the
    registry and hands it to [register_path]; when the empty path cannot
    be opened the process exits there, the line consumed, the empty path
    in the registry and not in the kqueue. *)
Theorem empty_line_is_registered (fuel : nat) (avail eof br : Z)
    (ps : list string) (rest : string) (re : option Z) (ef : bool) (w : world) :
  loop_guard br avail eof
    {| pending := nl +:+ rest; read_error := re; eof_flag := ef |} = true ->
  register_paths_loop (S fuel) avail eof br
    (at_paths ps {| pending := nl +:+ rest; read_error := re; eof_flag := ef |} w)
  = bind (register_path ""
            (at_state (ps ++ [""]) ps
               {| pending := rest; read_error := re; eof_flag := ef |} w))
      (register_paths_loop fuel avail eof (size_t_of (br + 1)))
  /\ (forall e, os_open "" OPEN_MODE = SysFail e ->
        exists w',
          register_paths_loop (S fuel) avail eof br
            (at_paths ps
               {| pending := nl +:+ rest; read_error := re; eof_flag := ef |} w)
          = Exited e w'
          /\ iterate w' = Some (ps ++ [""]) /\ watches w' = ps
          /\ stderr w' = stderr w +:+ err_text "couldn't open " e
          /\ pending (input w') = rest).
Proof.
  intros Hg.
  assert (Hturn : register_paths_loop (S fuel) avail eof br
    (at_paths ps {| pending := nl +:+ rest; read_error := re; eof_flag := ef |} w)
  = bind (register_path ""
            (at_state (ps ++ [""]) ps
               {| pending := rest; read_error := re; eof_flag := ef |} w))
      (register_paths_loop fuel avail eof (size_t_of (br + 1)))).
  { unfold at_paths. rewrite loop_turn, Hg.
    change (nl +:+ rest) with ("" +:+ nl +:+ rest).
    rewrite fgetln_line by done. by rewrite (decode_line "") by done. }
  split; [exact Hturn|].
  intros e Hopen. rewrite Hturn.
  rewrite (register_path_open_fails _ _ e) by done. cbn [bind].
  eexists. split; [done|]. split; [|split; [|done]].
  - apply iterate_registry. by split.
  - by apply watches_kq.
Qed.

End Failures.

(** ** The stream line parser *)

Section Parser.
Context {H : SysHeaders} {E : OS}.

Lemma loop_guard_false (br avail eof : Z) (f : FILE) :
  loop_guard br avail eof f = false
  <-> size_t_of avail <= br /\ (eof = 0 \/ feof f = true).
Proof.
  unfold loop_guard, truthy. rewrite orb_false_iff, Z.ltb_ge, andb_false_iff.
  rewrite !negb_false_iff, Z.eqb_eq. done.
Qed.

(** C5, as amended. The parser strips the newline of each line it
    decodes, takes a final unterminated line at the real end of the stream
    as a path, makes no path of an empty rest, and exits on a read failure
    that is not the end of the stream.  Its loop goes on while the bytes
    consumed are fewer than the ready byte count, or the end of the stream
    was signaled and is not reached yet: with the end signaled it reads to
    the real end of the stream even when the count is reached before; it
    stops at once when the stream turns out to have ended.  Reading
    "/tmp/a", newline, "/tmp/b" with the end of the stream signaled
    registers /tmp/a and /tmp/b. *)
Theorem control_stream_parsed (good : list string) (last : string)
    (ps : list string) (w : world) :
  Forall valid_path good -> plain last = true ->
  (last <> "" -> registrable last) ->
  (forall avail eof, truthy eof = true ->
     register_paths avail eof
       (at_paths ps {| pending := feed good +:+ last; read_error := None;
                       eof_flag := false |} w)
     = Running (at_paths (ps ++ good ++ rest_path last)
                  {| pending := ""; read_error := None; eof_flag := true |} w))
  /\ (forall avail eof ef,
        strlen (feed good +:+ last) <= size_t_of avail ->
        exists f', pending f' = ""
          /\ register_paths avail eof
               (at_paths ps {| pending := feed good +:+ last; read_error := None;
                               eof_flag := ef |} w)
             = Running (at_paths (ps ++ good ++ rest_path last) f' w))
  /\ (forall br avail eof f,
        loop_guard br avail eof f = false
        <-> size_t_of avail <= br /\ (eof = 0 \/ feof f = true))
  /\ (forall fuel br avail eof w0,
        loop_guard br avail eof (input w0) = false ->
        register_paths_loop (S fuel) avail eof br w0 = Running w0)
  /\ (forall fuel br avail eof s e,
        no_char NL s = true ->
        loop_guard br avail eof
          {| pending := s; read_error := Some e; eof_flag := false |} = true ->
        register_paths_loop (S fuel) avail eof br
          (at_paths ps {| pending := s; read_error := Some e;
                          eof_flag := false |} w)
        = Exited 1
            (set_stderr (stderr w +:+ err_text "couldn't read input" e)
               (set_errno e
                  (at_paths ps {| pending := s; read_error := Some e;
                                  eof_flag := false |} w))))
  /\ (registrable "/tmp/a" -> registrable "/tmp/b" ->
      forall avail eof, truthy eof = true ->
        register_paths avail eof
          (at_paths ps {| pending := "/tmp/a" +:+ nl +:+ "/tmp/b";
                          read_error := None; eof_flag := false |} w)
        = Running (at_paths (ps ++ ["/tmp/a"; "/tmp/b"])
                     {| pending := ""; read_error := None; eof_flag := true |}
                     w)).
Proof.
  intros Hgood Hplain Hreg.
  assert (Heof : forall (good : list string) (last : string),
    Forall valid_path good -> plain last = true ->
    (last <> "" -> registrable last) ->
    forall avail eof, truthy eof = true ->
     register_paths avail eof
       (at_paths ps {| pending := feed good +:+ last; read_error := None;
                       eof_flag := false |} w)
     = Running (at_paths (ps ++ good ++ rest_path last)
                  {| pending := ""; read_error := None; eof_flag := true |} w)).
  { clear. intros good last Hgood Hplain Hreg avail eof He.
    unfold register_paths. cbn [input at_paths at_state pending].
    change 0 with (size_t_of 0).
    apply (loop_valid_eof good last _ avail eof 0 ps w); done || lia. }
  split; [by apply Heof|]. split; [|split; [|split; [|split]]].
  - intros avail eof ef Hcount. unfold register_paths.
    cbn [input at_paths at_state pending]. change 0 with (size_t_of 0).
    destruct (loop_valid_count good last
                (S (String.length (feed good +:+ last))) avail eof 0 ps ef w)
      as (f' & Hf' & _ & Hrun); try done; try lia.
    by exists f'.
  - apply loop_guard_false.
  - intros fuel br avail eof w0 Hg. cbn [register_paths_loop]. by rewrite Hg.
  - intros fuel br avail eof s e Hs Hg. unfold at_paths.
    rewrite loop_turn, Hg. unfold fgetln. cbn [pending read_error].
    by rewrite split_line_none.
  - intros Ha Hb avail eof He.
    apply (Heof ["/tmp/a"] "/tmp/b"); try done.
    constructor; [by split|constructor].
Qed.

End Parser.

(** ** Concrete runs *)

Section Samples.
Local Existing Instance bsd_headers.
Local Existing Instance sample_os.

Lemma sample_registrable (p : string) :
  String.prefix "/tmp/" p = true -> registrable p.
Proof. intros Hp. split; [|done]. cbn. by rewrite Hp. Qed.

Lemma sample_valid : Forall valid_path ["/tmp/a"; "/tmp/b"].
Proof.
  repeat (constructor; [split; [reflexivity|by apply sample_registrable]|]).
  constructor.
Qed.

Lemma paths_registered_in_order_witness :
  os_kqueue = SysOk /\ os_watch_input = SysOk
  /\ Forall valid_path ["/tmp/a"; "/tmp/b"]
  /\ exists w,
       watcher_loop (fresh_stream (feed ["/tmp/a"; "/tmp/b"])) no_event
         [Ready (input_event 14 0)] = Running w
       /\ registered w ["/tmp/a"; "/tmp/b"].
Proof.
  split; [reflexivity|]. split; [reflexivity|]. split; [exact sample_valid|].
  apply (proj1 (@paths_registered_in_order bsd_headers sample_os ["/tmp/a"; "/tmp/b"] no_event
                  eq_refl eq_refl sample_valid) 14 0).
  left. vm_compute. discriminate.
Defined.

Lemma interrupted_wait_retried_witness :
  watcher_loop (fresh_stream "") no_event []
  = Running (at_paths [] (fresh_stream "") (boot (fresh_stream "") no_event))
  /\ loop_iteration (WaitFailed 5)
       (at_paths [] (fresh_stream "") (boot (fresh_stream "") no_event))
     = Exited 1
         (set_stderr ("" +:+ err_text "error checking kqueue" 5)
            (set_errno 5
               (set_signal_caught 0
                  (at_paths [] (fresh_stream "")
                     (boot (fresh_stream "") no_event))))).
Proof.
  split; [reflexivity|].
  refine (proj1 (proj1 (proj2 (@interrupted_wait_retried bsd_headers sample_os
                                 (fresh_stream "") no_event [] _ eq_refl))
                   5 _)).
  discriminate.
Defined.

Lemma unregistrable_path_is_fatal_witness :
  os_open "/nonexistent" OPEN_MODE = SysFail 2 /\ 0 < 2 < 256
  /\ exists w',
       register_path "/nonexistent" (boot (fresh_stream "") no_event)
       = Exited 2 w'
       /\ exit_status 2 <> 0
       /\ stderr w' = "" +:+ err_text ("couldn't open " +:+ "/nonexistent") 2.
Proof.
  split; [reflexivity|]. split; [lia|].
  destruct (proj1 (@unregistrable_path_is_fatal bsd_headers sample_os "/nonexistent"
                     (boot (fresh_stream "") no_event)) 2 eq_refl)
    as (w' & Hrun & Hstatus & Herr & _); [lia|].
  exists w'. split; [exact Hrun|]. split; [exact Hstatus|exact Herr].
Defined.

Lemma empty_line_is_registered_witness :
  loop_guard 0 1 0 (fresh_stream (nl +:+ "/tmp/c" +:+ nl)) = true
  /\ exists w',
       register_paths_loop 9 1 0 0
         (at_paths [] (fresh_stream (nl +:+ "/tmp/c" +:+ nl))
            (boot (fresh_stream "") no_event))
       = Exited 2 w'
       /\ iterate w' = Some ([] ++ [""]) /\ watches w' = []
       /\ stderr w' = "" +:+ err_text "couldn't open " 2
       /\ pending (input w') = "/tmp/c" +:+ nl.
Proof.
  split; [reflexivity|].
  exact (proj2 (@empty_line_is_registered bsd_headers sample_os 8 1 0 0 [] ("/tmp/c" +:+ nl) None false
                  (boot (fresh_stream "") no_event) eq_refl) 2 eq_refl).
Defined.

Lemma control_stream_parsed_witness :
  Forall valid_path ["/tmp/a"] /\ plain "/tmp/b" = true
  /\ ("/tmp/b" <> "" -> registrable "/tmp/b")
  /\ register_paths 7 32768
       (at_paths [] (fresh_stream (feed ["/tmp/a"] +:+ "/tmp/b"))
          (boot (fresh_stream "") no_event))
     = Running (at_paths ([] ++ ["/tmp/a"] ++ rest_path "/tmp/b")
                  {| pending := ""; read_error := None; eof_flag := true |}
                  (boot (fresh_stream "") no_event)).
Proof.
  assert (Hv : Forall valid_path ["/tmp/a"]).
  { constructor; [split; [reflexivity|by apply sample_registrable]|constructor]. }
  assert (Hr : "/tmp/b" <> "" -> registrable "/tmp/b").
  { intros _. by apply sample_registrable. }
  split; [exact Hv|]. split; [reflexivity|]. split; [exact Hr|].
  exact (proj1 (@control_stream_parsed bsd_headers sample_os ["/tmp/a"] "/tmp/b" []
                  (boot (fresh_stream "") no_event) Hv eq_refl Hr)
           7 32768 eq_refl).
Defined.

(** C4, counterexample. The registry one path ahead of the kqueue: the
    process exits on a path that cannot be opened, after the path was
    appended to the registry and before any registration was made for
    it. *)
Lemma registry_ahead_of_kqueue :
  exists s w,
    watcher_loop (fresh_stream ("/nonexistent" +:+ nl)) no_event
      [Ready (input_event 13 0)] = Exited s w
    /\ iterate w = Some ["/nonexistent"]
    /\ watches w = []
    /\ iterate w <> Some (watches w).
Proof.
  eexists _, _. split; [vm_compute; reflexivity|].
  split; [reflexivity|]. split; [reflexivity|]. discriminate.
Qed.

(** C5, counterexample. The loop does not stop when the ready byte count
    is reached: with the end of the stream signaled and 7 bytes reported,
    it is still going on after the 7 bytes of the first line, and
    registers the path of the second line too. *)
Lemma loop_reads_past_ready_count :
  ~ stops_as_specified
  /\ spec_until 7 7 32768 (fresh_stream "/tmp/b") = true
  /\ loop_guard 7 7 32768 (fresh_stream "/tmp/b") = true
  /\ exists w,
       watcher_loop (fresh_stream ("/tmp/a" +:+ nl +:+ "/tmp/b")) no_event
         [Ready (input_event 7 32768)] = Running w
       /\ watches w = ["/tmp/a"; "/tmp/b"]
       /\ iterate w = Some ["/tmp/a"; "/tmp/b"]
       /\ pending (input w) = "".
Proof.
  split.
  { intros Hspec. specialize (Hspec 7 7 32768 (fresh_stream "/tmp/b")).
    vm_compute in Hspec. discriminate. }
  split; [reflexivity|]. split; [reflexivity|].
  eexists. split; [vm_compute; reflexivity|].
  split; [reflexivity|]. split; reflexivity.
Qed.

End Samples.

(** * Further properties *)

(** ** The buffer of the renderer *)

Section RendererBuffer.
Context {H : SysHeaders}.

Lemma flag_walk_app (tbl : list flag_desc) (flags : Z) :
  forall flagged a b,
    flag_walk tbl flags flagged (a +:+ b) = a +:+ flag_walk tbl flags flagged b.
Proof.
  induction tbl as [|d tbl IH]; intros flagged a b; cbn [flag_walk]; [done|].
  destruct (truthy (flag d)); [|done].
  destruct (truthy (Z.land (flag d) flags)); [|apply IH].
  rewrite <- IH. f_equal. unfold strcat.
  destruct flagged; by rewrite !sapp_assoc.
Qed.

(** X1. [change_flags_to_msg] appends the rendering of the flags to
    whatever the buffer holds, with no comma between the old contents and
    the first label; called twice on the same buffer it leaves the two
    renderings one after the other, not one comma-joined list. *)
Theorem change_flags_appended :
  (forall flags buf, change_flags_to_msg flags buf = buf +:+ render flags)
  /\ (forall m1 m2 buf,
        change_flags_to_msg m2 (change_flags_to_msg m1 buf)
        = buf +:+ render m1 +:+ render m2).
Proof.
  assert (Happ : forall flags buf,
            change_flags_to_msg flags buf = buf +:+ render flags).
  { intros flags buf. unfold render, change_flags_to_msg.
    rewrite <- flag_walk_app. by rewrite sapp_nil_r. }
  split; [exact Happ|].
  intros m1 m2 buf. by rewrite (Happ m2), (Happ m1), sapp_assoc.
Qed.

Lemma flag_walk_sized_fits (tbl : list flag_desc) (flags : Z) :
  forall flagged (b : cbuf),
    strlen (buf_text b) + 1 <= buf_size b ->
    strlen (buf_text b) + 1 + table_weight tbl < 2 ^ 64 ->
    exists n,
      flag_walk_sized tbl flags flagged b
      = Some {| buf_text := flag_walk tbl flags flagged (buf_text b);
                buf_size := n |}
      /\ strlen (flag_walk tbl flags flagged (buf_text b)) + 1 <= n
      /\ (buf_size b = strlen (buf_text b) + 1 ->
          n = strlen (flag_walk tbl flags flagged (buf_text b)) + 1).
Proof.
  induction tbl as [|d tbl IH]; intros flagged b Hfit Hsmall;
    cbn [flag_walk_sized flag_walk].
  { exists (buf_size b). by destruct b. }
  destruct (truthy (flag d)).
  2:{ exists (buf_size b). by destruct b. }
  cbn [table_weight fold_right] in Hsmall. fold (table_weight tbl) in Hsmall.
  pose proof (strlen_nonneg (buf_text b)) as Hb.
  pose proof (strlen_nonneg (name d)) as Hd.
  destruct (truthy (Z.land (flag d) flags)).
  2:{ apply IH; [done|lia]. }
  assert (Hw : 0 <= table_weight tbl).
  { clear. induction tbl as [|x tbl IHt]; cbn; [done|].
    pose proof (strlen_nonneg (name x)). fold (table_weight tbl). lia. }
  set (fl := if flagged then 1 else 0).
  assert (Hfl : 0 <= fl <= 1) by (unfold fl; destruct flagged; lia).
  unfold size_t_of. rewrite Z.mod_small by lia.
  unfold realloc. destruct (Z.leb_spec (strlen (buf_text b) + 1)
    (strlen (buf_text b) + strlen (name d) + fl + 1)) as [_|?]; [|lia].
  cbn [buf_text buf_size].
  assert (Hcomma : (if flagged
                    then strcat_in {| buf_text := buf_text b;
                           buf_size := strlen (buf_text b) + strlen (name d) + fl + 1 |} ","
                    else Some {| buf_text := buf_text b;
                           buf_size := strlen (buf_text b) + strlen (name d) + fl + 1 |})
          = Some {| buf_text := if flagged then strcat (buf_text b) ","
                                else buf_text b;
                    buf_size := strlen (buf_text b) + strlen (name d) + fl + 1 |}).
  { unfold fl. destruct flagged; [|done]. unfold strcat_in. cbn [buf_text buf_size].
    change (strlen ",") with 1.
    destruct (Z.leb_spec (strlen (buf_text b) + 1 + 1)
      (strlen (buf_text b) + strlen (name d) + 1 + 1)) as [_|?]; [done|lia]. }
  rewrite Hcomma. clear Hcomma.
  set (buf1 := if flagged then strcat (buf_text b) "," else buf_text b).
  assert (Hlen1 : strlen buf1 = strlen (buf_text b) + fl).
  { unfold buf1, fl, strcat. destruct flagged; [|lia].
    rewrite strlen_app. change (strlen ",") with 1. lia. }
  unfold strcat_in. cbn [buf_text buf_size]. rewrite Hlen1.
  destruct (Z.leb_spec (strlen (buf_text b) + fl + strlen (name d) + 1)
    (strlen (buf_text b) + strlen (name d) + fl + 1)) as [_|?]; [|lia].
  fold (strcat buf1 (name d)).
  destruct (IH true {| buf_text := strcat buf1 (name d);
                       buf_size := strlen (buf_text b) + strlen (name d) + fl + 1 |})
    as (n & Hrun & Hn & Hexact); cbn [buf_text buf_size].
  { unfold strcat. rewrite strlen_app, Hlen1. lia. }
  { unfold strcat. rewrite strlen_app, Hlen1. lia. }
  exists n. split; [exact Hrun|]. split; [exact Hn|].
  intros _. apply Hexact. cbn [buf_text buf_size]. unfold strcat.
  rewrite strlen_app, Hlen1. lia.
Qed.

(** X2. The renderer never writes past its buffer.  With the sizes the
    code gives to [realloc], every [strcat] fits the block, whatever the
    flags and whatever string the buffer held; from the one-byte buffer of
    [handle_event] the final block is exactly as long as the rendering and
    its terminator. *)
Theorem change_flags_never_overflows (flags : Z) (b : cbuf) :
  strlen (buf_text b) + 1 <= buf_size b ->
  strlen (buf_text b) + 48 < 2 ^ 64 ->
  (exists n,
     flag_walk_sized flag_descs flags false b
     = Some {| buf_text := change_flags_to_msg flags (buf_text b);
               buf_size := n |}
     /\ strlen (change_flags_to_msg flags (buf_text b)) + 1 <= n)
  /\ flag_walk_sized flag_descs flags false {| buf_text := ""; buf_size := 1 |}
     = Some {| buf_text := render flags;
               buf_size := strlen (render flags) + 1 |}.
Proof.
  intros Hfit Hsmall. split.
  - destruct (flag_walk_sized_fits flag_descs flags false b Hfit)
      as (n & Hrun & Hn & _).
    { change (table_weight flag_descs) with 47. lia. }
    exists n. by split.
  - destruct (flag_walk_sized_fits flag_descs flags false
                {| buf_text := ""; buf_size := 1 |})
      as (n & Hrun & _ & Hexact); [done|done|].
    rewrite Hrun. f_equal. f_equal. by apply Hexact.
Qed.

End RendererBuffer.

Lemma change_flags_never_overflows_witness :
  (exists n,
     flag_walk_sized (@flag_descs bsd_headers) 3 false
       {| buf_text := "x"; buf_size := 2 |}
     = Some {| buf_text := @change_flags_to_msg bsd_headers 3 "x";
               buf_size := n |}
     /\ strlen (@change_flags_to_msg bsd_headers 3 "x") + 1 <= n)
  /\ flag_walk_sized (@flag_descs bsd_headers) 3 false
       {| buf_text := ""; buf_size := 1 |}
     = Some {| buf_text := @render bsd_headers 3;
               buf_size := strlen (@render bsd_headers 3) + 1 |}.
Proof.
  apply (@change_flags_never_overflows bsd_headers 3
           {| buf_text := "x"; buf_size := 2 |}); by vm_compute.
Defined.

(** ** The shape of the registry and of the kqueue *)

Section Shape.
Context {H : SysHeaders} {E : OS}.

Lemma registry_doubly_linked_chain (w : world) (ps : list string) :
  registry_is w ps -> doubly_linked w.
Proof.
  intros [Hh Ht Hd]. unfold doubly_linked. rewrite Hh, Ht, Hd.
  split; [|split; [|split]].
  - intros a b ea Ha Hb. rewrite lookup_chain in Ha.
    destruct (ps !! a) as [p|] eqn:Hp; [|done]. cbn in Ha.
    injection Ha as <-. cbn [next entry_at] in Hb.
    destruct (decide (S a < length ps)%nat) as [Hlt|]; [|done].
    injection Hb as <-.
    destruct (lookup_lt_is_Some_2 ps (S a) Hlt) as [q Hq].
    exists (entry_at (length ps) (S a) q). by rewrite lookup_chain, Hq.
  - intros a b eb Hb Ha. rewrite lookup_chain in Hb.
    destruct (ps !! b) as [q|] eqn:Hq; [|done]. cbn in Hb.
    injection Hb as <-. cbn [prev entry_at] in Ha.
    destruct b as [|b]; [done|]. injection Ha as <-.
    apply lookup_lt_Some in Hq.
    destruct (lookup_lt_is_Some_2 ps b) as [p Hp]; [lia|].
    exists (entry_at (length ps) b p). rewrite lookup_chain, Hp.
    split; [done|]. cbn. by destruct (decide (S b < length ps)%nat).
  - unfold ptr. destruct (decide (0 < length ps)%nat) as [Hlt|Hz].
    + destruct (lookup_lt_is_Some_2 ps 0 Hlt) as [p Hp].
      exists (entry_at (length ps) 0 p). by rewrite lookup_chain, Hp.
    + by assert (ps = []) as -> by (apply length_zero_iff_nil; lia).
  - unfold ptr. destruct (decide (length ps - 1 < length ps)%nat) as [Hlt|Hz].
    + destruct (lookup_lt_is_Some_2 ps (length ps - 1) Hlt) as [p Hp].
      exists (entry_at (length ps) (length ps - 1) p).
      rewrite lookup_chain, Hp. split; [done|]. cbn.
      destruct (decide (S (length ps - 1) < length ps)%nat); [lia|done].
    + by assert (ps = []) as -> by (apply length_zero_iff_nil; lia).
Qed.

(** X3. The registry stays a well-formed doubly linked list.  In every
    state the program reaches, waiting or exited, [next] and [prev] are
    inverse to each other, [paths_tail] is the entry without predecessor
    and the static [paths_head] the entry without successor (both null
    exactly when the registry is empty). *)
Theorem registry_doubly_linked (inp : FILE) (garbage : kevent)
    (ws : list wakeup) :
  match watcher_loop inp garbage ws with
  | Running w => doubly_linked w
  | Exited _ w => doubly_linked w
  | Stuck => False
  end.
Proof.
  pose proof (watcher_loop_in_step inp garbage ws) as Hs.
  destruct (watcher_loop inp garbage ws) as [w|s w|]; cbn [in_step] in Hs.
  - destruct Hs as (ps & f & ->).
    apply (registry_doubly_linked_chain _ ps). by split.
  - destruct Hs as (ps & _ & [Hr|[p Hr]]);
      by eapply registry_doubly_linked_chain.
  - done.
Qed.

Lemma vnode_idents_distinct (ps : list string) :
  NoDup (kev_ident <$> imap vnode_change ps).
Proof.
  apply NoDup_alt. intros i j x Hi Hj.
  rewrite list_lookup_fmap, list_lookup_imap in Hi, Hj.
  destruct (ps !! i) as [p|]; [|done]. destruct (ps !! j) as [q|]; [|done].
  cbn in Hi, Hj. injection Hi as <-. injection Hj as Hij. lia.
Qed.

(** X4. Every path gets a registration of its own.  Whenever the loop
    waits, the kqueue holds the registration of the control stream and
    then, for each path of the registry in order, one vnode registration
    with that path as its token, armed with [EV_ADD | EV_CLEAR] for all
    seven change kinds, on a descriptor no other registration uses: a
    path submitted twice is watched twice. *)
Theorem one_registration_per_path (inp : FILE) (garbage : kevent)
    (ws : list wakeup) :
  match watcher_loop inp garbage ws with
  | Running w =>
      exists regs,
        kq_changes w = input_change :: regs
        /\ iterate w = Some (omap kev_udata regs)
        /\ length regs = length (omap kev_udata regs)
        /\ NoDup (kev_ident <$> regs)
        /\ Forall (fun r => kev_filter r = EVFILT_VNODE
                            /\ kev_flags r = Z.lor EV_ADD EV_CLEAR
                            /\ kev_fflags r = ALL_FLAGS) regs
  | _ => True
  end.
Proof.
  pose proof (watcher_loop_in_step inp garbage ws) as Hs.
  destruct (watcher_loop inp garbage ws) as [w|s w|]; [|done..].
  destruct Hs as (ps & f & ->).
  exists (imap vnode_change ps).
  assert (Hu : omap kev_udata (imap vnode_change ps) = ps)
    by by apply omap_udata_imap.
  rewrite Hu. split; [done|]. split; [apply iterate_registry; by split|].
  split; [apply length_imap|]. split; [apply vnode_idents_distinct|].
  apply List.Forall_forall. intros r Hr.
  apply list_elem_of_In, list_elem_of_lookup in Hr as [i Hi].
  rewrite list_lookup_imap in Hi. destruct (ps !! i); [|done].
  cbn in Hi. by injection Hi as <-.
Qed.

End Shape.

(** ** What the program writes, and how it exits *)

Section Traces.
Context {H : SysHeaders} {E : OS}.

Lemma register_path_quiet (p : string) (w : world) :
  quiet_from w (register_path p w).
Proof.
  unfold register_path.
  destruct (os_open p OPEN_MODE) as [|e] eqn:Hopen.
  - destruct (os_watch (next_fd w) p) as [|e]; cbn; [done|].
    split; [by left|]. split; [done|]. by eexists _, e.
  - cbn. split; [right; by exists p, e|]. split; [done|]. by eexists _, e.
Qed.

Lemma append_entry_quiet (line : string) (w w' : world) (n : nat) :
  append_entry line w = Some (n, w') ->
  output w' = output w /\ stderr w' = stderr w.
Proof.
  unfold append_entry. cbn [malloc_entry].
  destruct (insque _ _ _); [|done].
  cbn [paths_tail set_heap].
  by destruct (paths_tail w); intros [= <- <-].
Qed.

Lemma loop_quiet (fuel : nat) :
  forall (avail eof br : Z) (w : world),
    quiet_from w (register_paths_loop fuel avail eof br w).
Proof.
  induction fuel as [|fuel IH]; intros avail eof br w; [done|].
  cbn [register_paths_loop].
  destruct (loop_guard br avail eof (input w)); [|done].
  destruct (fgetln (input w)) as [[line|] f'].
  - destruct (append_entry line (set_input f' w)) as [[n w1]|] eqn:Happ; [|done].
    apply append_entry_quiet in Happ as [Ho1 He1]. cbn in Ho1, He1.
    destruct (heap w1 !! n) as [e|]; [|done].
    pose proof (register_path_quiet (path e) w1) as Hq.
    destruct (register_path (path e) w1) as [w2|s w2|]; cbn [bind quiet_from] in *.
    + destruct Hq as [Ho2 He2].
      specialize (IH avail eof (size_t_of (br + strlen line)) w2).
      destruct (register_paths_loop fuel _ _ _ w2) as [w3|s w3|];
        cbn [quiet_from] in *; [| |done].
      * destruct IH as [Ho3 He3]. split; congruence.
      * destruct IH as (Hc & Ho3 & msg & e' & He3).
        split; [done|]. split; [congruence|]. exists msg, e'. congruence.
    + destruct Hq as (Hc & Ho2 & msg & e' & He2).
      split; [done|]. split; [congruence|]. exists msg, e'. congruence.
    + done.
  - cbn [input set_input]. destruct (feof f'); [done|].
    split; [by left|]. destruct (read_error f') as [e|]; cbn.
    + split; [done|]. by eexists _, e.
    + split; [done|]. by eexists _, (errno_ w).
Qed.

Lemma dump_walk_appends (fuel : nat) (h : list path_entry) :
  forall (p : nat) (err err' : string),
    dump_walk fuel h p err = Some err' -> exists t, err' = err +:+ t.
Proof.
  induction fuel as [|fuel IH]; intros p err err'; cbn [dump_walk]; [done|].
  destruct (h !! p) as [e|]; [|done].
  destruct (next e) as [q|].
  - intros Hw. apply IH in Hw as [t ->].
    exists (path e +:+ nl +:+ t). by rewrite !sapp_assoc.
  - intros [= <-]. by eexists.
Qed.

Lemma dump_paths_frame (w w1 : world) :
  dump_paths w = Running w1 -> output w1 = output w /\ signal_caught w1 = 1.
Proof.
  unfold dump_paths. destruct (paths_tail w); [|by intros [= <-]].
  destruct (dump_walk _ _ _ _); [|done]. by intros [= <-].
Qed.

Lemma kevent_wait_frame (wk : wakeup) :
  forall (w w' : world) (r : Z),
    kevent_wait wk w = Some (r, w') ->
    output w' = output w /\ (signal_caught w = 1 -> signal_caught w' = 1).
Proof.
  induction wk as [ev| |e|wk IH]; intros w w' r; cbn [kevent_wait].
  - by intros [= <- <-].
  - destruct (dump_paths w) as [w1|s w1|] eqn:Hd; [|done..].
    apply dump_paths_frame in Hd as [Ho Hs]. by intros [= <- <-].
  - by intros [= <- <-].
  - destruct (dump_paths w) as [w1|s w1|] eqn:Hd; [|done..].
    apply dump_paths_frame in Hd as [Ho Hs]. intros Hk.
    apply IH in Hk as [Ho' Hs']. split; [congruence|]. intros _. by apply Hs'.
Qed.

(** One turn of the loop, seen on the two output streams. *)
Lemma loop_iteration_trace (wk : wakeup) (w : world) :
  match loop_iteration wk w with
  | Running w' =>
      no_bare_eintr [wk] = true -> output w' = output w +:+ report_of wk
  | Exited s w' =>
      exit_cause s /\ output w' = output w
      /\ exists pre msg e, stderr w' = pre +:+ err_text msg e
  | Stuck => True
  end.
Proof.
  assert (Hdispatch : forall w0, output w0 = output w ->
            match dispatch w0 with
            | Running w' =>
                output w'
                = output w +:+ (if is_input_event (k_event w0) then ""
                                else report_line (kev_udata (k_event w0))
                                       (kev_fflags (k_event w0)))
            | Exited s w' =>
                exit_cause s /\ output w' = output w
                /\ exists pre msg e, stderr w' = pre +:+ err_text msg e
            | Stuck => True
            end).
  { intros w0 Ho. unfold dispatch, is_input_event.
    destruct (_ && _).
    - unfold register_paths.
      pose proof (loop_quiet (S (String.length (pending (input w0))))
                    (int_of (kev_data (k_event w0)))
                    (Z.land (kev_flags (k_event w0)) EV_EOF) 0 w0) as Hq.
      destruct (register_paths_loop _ _ _ _ _) as [w'|s w'|];
        cbn [quiet_from] in Hq; [| |done].
      + destruct Hq as [-> _]. by rewrite sapp_nil_r.
      + destruct Hq as (Hc & -> & msg & e & ->). eauto 6.
    - rewrite handle_event_line. cbn. by rewrite Ho. }
  unfold loop_iteration. destruct wk as [ev| |e|wk]; cbn [kevent_wait].
  - cbn [bind Z.eqb].
    specialize (Hdispatch (set_k_event ev (set_signal_caught 0 w)) eq_refl).
    cbn [k_event set_k_event] in Hdispatch.
    change (truthy (signal_caught (set_k_event ev (set_signal_caught 0 w))))
      with false.
    cbn iota. by destruct (dispatch _) as [w'|s w'|].
  - unfold dump_paths. cbn [paths_tail set_signal_caught].
    destruct (paths_tail w) as [p|].
    + destruct (dump_walk _ _ _ _) as [t|]; [|done].
      cbn -[Z.eqb]. rewrite !Z.eqb_refl. cbn. intros _. by rewrite sapp_nil_r.
    + cbn -[Z.eqb]. rewrite !Z.eqb_refl. cbn. intros _. by rewrite sapp_nil_r.
  - cbn -[Z.eqb err dispatch]. destruct (e =? EINTR) eqn:Heq; cbn -[err dispatch].
    + specialize (Hdispatch (set_errno e (set_signal_caught 0 w)) eq_refl).
      change (truthy (signal_caught (set_errno e (set_signal_caught 0 w))))
        with false.
      cbn iota. by destruct (dispatch _) as [w'|s w'|].
    + cbn. split; [by left|]. split; [done|]. by eexists _, _, e.
  - destruct (dump_paths (set_signal_caught 0 w)) as [w1|s w1|] eqn:Hd;
      [|done..].
    apply dump_paths_frame in Hd as [Ho1 Hs1].
    destruct (kevent_wait wk w1) as [[r w2]|] eqn:Hk; [|done].
    apply kevent_wait_frame in Hk as [Ho2 Hs2]. specialize (Hs2 Hs1).
    cbn [output set_signal_caught] in Ho1.
    assert (Hgo : match (if truthy (signal_caught w2) then Running w2
                         else dispatch w2) with
                  | Running w' =>
                      no_bare_eintr [Caught wk] = true ->
                      output w' = output w +:+ report_of (Caught wk)
                  | Exited s w' =>
                      exit_cause s /\ output w' = output w
                      /\ exists pre msg e, stderr w' = pre +:+ err_text msg e
                  | Stuck => True
                  end).
    { rewrite Hs2. cbn. intros _. rewrite sapp_nil_r. congruence. }
    destruct (r =? -1); [|exact Hgo].
    destruct (negb (errno_ w2 =? EINTR)); [|exact Hgo].
    cbn. split; [by left|]. split; [congruence|]. by eexists _, _, _.
Qed.

Lemma run_trace (ws : list wakeup) :
  forall w, traced_from w ws (run ws (Running w)).
Proof.
  induction ws as [|wk ws IH]; intros w.
  { cbn. intros _. by rewrite sapp_nil_r. }
  cbn [run]. pose proof (loop_iteration_trace wk w) as Ht.
  assert (Hsplit : no_bare_eintr (wk :: ws) = true ->
            no_bare_eintr [wk] = true /\ no_bare_eintr ws = true).
  { unfold no_bare_eintr. cbn [forallb]. rewrite andb_true_r.
    apply andb_prop. }
  destruct (loop_iteration wk w) as [w1|s w1|].
  - specialize (IH w1).
    destruct (run ws (Running w1)) as [w2|s w2|]; cbn [traced_from] in *.
    + intros [H1 H2]%Hsplit. rewrite (IH H2), (Ht H1).
      by rewrite sapp_assoc.
    + destruct IH as (Hc & Herr & Hout). split; [done|]. split; [done|].
      intros [H1 H2]%Hsplit. destruct (Hout H2) as [k ->].
      exists (S k). cbn [take reports_of]. rewrite (Ht H1).
      by rewrite sapp_assoc.
    + done.
  - rewrite run_exited. destruct Ht as (Hc & Ho & Herr).
    cbn [traced_from]. split; [done|]. split; [done|].
    intros _. exists 0%nat. cbn. by rewrite sapp_nil_r.
  - by destruct ws.
Qed.

Lemma run_app (ws1 ws2 : list wakeup) :
  forall o, run (ws1 ++ ws2) o = run ws2 (run ws1 o).
Proof.
  induction ws1 as [|wk ws1 IH]; intros o; [done|].
  cbn [app run]. destruct o as [w|s w|]; [apply IH|..];
    by destruct ws2.
Qed.

Lemma init_quiet (w : world) : quiet_from w (watcher_loop_init w).
Proof.
  unfold watcher_loop_init.
  destruct os_kqueue as [|e]; [destruct os_watch_input as [|e]|]; cbn;
    [done|..]; (split; [by left|]); (split; [done|]); by eexists _, e.
Qed.

Lemma watcher_loop_trace (inp : FILE) (garbage : kevent) (ws : list wakeup) :
  traced_from (boot inp garbage) ws (watcher_loop inp garbage ws).
Proof.
  unfold watcher_loop. pose proof (init_quiet (boot inp garbage)) as Hq.
  destruct (watcher_loop_init (boot inp garbage)) as [w0|s w0|];
    cbn [quiet_from] in Hq.
  - destruct Hq as [Ho He]. pose proof (run_trace ws w0) as Ht.
    destruct (run ws (Running w0)) as [w1|s w1|]; cbn [traced_from] in *.
    + by rewrite <- Ho.
    + by rewrite <- Ho.
    + done.
  - rewrite run_exited. destruct Hq as (Hc & Ho & msg & e & He).
    split; [done|]. split; [by eexists _, msg, e|].
    intros _. exists 0%nat. cbn [take reports_of]. by rewrite sapp_nil_r.
  - by destruct ws.
Qed.

Lemma watcher_loop_returns (inp : FILE) (garbage : kevent) (ws : list wakeup) :
  watcher_loop inp garbage ws <> Stuck.
Proof.
  pose proof (watcher_loop_in_step inp garbage ws) as Hs.
  by destruct (watcher_loop inp garbage ws).
Qed.


(** X5. The watcher leaves only through [err].  Whatever the control
    stream holds and whatever the waits return, when the process exits
    its status is 1 or the error code of the [open] that failed, and the
    last thing on the diagnostic stream is the message of [err]: the
    program name, what failed, the text of the error code. *)
Theorem exit_only_through_err (inp : FILE) (garbage : kevent)
    (ws : list wakeup) :
  match watcher_loop inp garbage ws with
  | Running _ => True
  | Exited s w =>
      exit_cause s /\ exists pre msg e, stderr w = pre +:+ err_text msg e
  | Stuck => False
  end.
Proof.
  pose proof (watcher_loop_trace inp garbage ws) as Ht.
  pose proof (watcher_loop_returns inp garbage ws) as Hr.
  destruct (watcher_loop inp garbage ws) as [w|s w|]; [done| |done].
  by destruct Ht as (Hc & Herr & _).
Qed.

(** X6. The report stream holds one line per dispatched change event
    and nothing else.  For every control stream and every sequence of
    wakeups without a wait that fails with [EINTR] while no handler has
    run, the report stream is the report lines of the events that the
    wait returned in turns in which the handler has not run and that were
    not the readiness of the control stream, in the order of their
    arrival; when the process exits, those of the turns it took.  An event
    returned in a turn in which the handler has run leaves no line;
    reading paths, dumping the registry and failing write nothing to the
    report stream. *)
Theorem reports_follow_events (inp : FILE) (garbage : kevent)
    (ws : list wakeup) :
  no_bare_eintr ws = true ->
  match watcher_loop inp garbage ws with
  | Running w => output w = reports_of ws
  | Exited _ w => exists k, output w = reports_of (take k ws)
  | Stuck => False
  end.
Proof.
  intros Hws.
  pose proof (watcher_loop_trace inp garbage ws) as Ht.
  pose proof (watcher_loop_returns inp garbage ws) as Hr.
  destruct (watcher_loop inp garbage ws) as [w|s w|]; [| |done].
  - by apply Ht.
  - destruct Ht as (_ & _ & Hout). by apply Hout.
Qed.

End Traces.

(** ** From the lines of the control stream to the registry *)

Section Lines.
Context {H : SysHeaders} {E : OS}.

Lemma chunks_split (s : string) :
  forall l r, split_line s = Some (l, r) -> chunks s = l :: chunks r.
Proof.
  induction s as [|c s IH]; intros l r; cbn [split_line chunks]; [done|].
  destruct (Ascii.eqb c NL).
  - by intros [= <- <-].
  - destruct (split_line s) as [[l' r']|]; [|done].
    intros [= <- <-]. by rewrite (IH l' r' eq_refl).
Qed.

Lemma chunks_whole (s : string) :
  split_line s = None -> s <> "" -> chunks s = [s].
Proof.
  induction s as [|c s IH]; cbn [split_line chunks]; [done|].
  destruct (Ascii.eqb c NL); [done|].
  destruct (split_line s) as [[l r]|]; [done|]. intros _ _.
  destruct s as [|d s]; [done|]. by rewrite IH.
Qed.

Lemma fgetln_chunks (f f' : FILE) (line : string) :
  fgetln f = (Some line, f') ->
  chunks (pending f) = line :: chunks (pending f').
Proof.
  unfold fgetln. destruct (split_line (pending f)) as [[l r]|] eqn:Hs.
  - intros [= <- <-]. by apply chunks_split.
  - destruct (read_error f); [done|].
    destruct (pending f) as [|c s] eqn:Hp; [done|].
    intros [= <- <-]. by rewrite chunks_whole.
Qed.

Lemma fgetln_none (f f' : FILE) :
  fgetln f = (None, f') -> pending f' = pending f.
Proof.
  unfold fgetln. destruct (split_line (pending f)) as [[l r]|]; [done|].
  destruct (read_error f); [by intros [= <-]|].
  by destruct (pending f); intros [= <-].
Qed.

(** The loop adds to the registry the paths of the lines it takes from
    the stream, in their order, and takes them from the front. *)
Lemma loop_lines (fuel : nat) :
  forall (avail eof br : Z) (ps0 done : list string) (f : FILE) (w : world),
    (String.length (pending f) < fuel)%nat ->
    consumed ps0 (done ++ chunks (pending f))
      (register_paths_loop fuel avail eof br
         (at_paths (ps0 ++ (decode <$> done)) f w)).
Proof.
  induction fuel as [|fuel IH]; intros avail eof br ps0 done f w Hfuel; [lia|].
  unfold at_paths. rewrite loop_turn.
  destruct (loop_guard br avail eof f).
  2:{ by exists done, f. }
  destruct (fgetln f) as [[line|] f'] eqn:Hget.
  - rewrite (fgetln_chunks _ _ _ Hget).
    assert (Hdone : (ps0 ++ (decode <$> done)) ++ [decode line]
                    = ps0 ++ (decode <$> (done ++ [line])))
      by by rewrite fmap_app, app_assoc.
    assert (Hlines : done ++ line :: chunks (pending f')
                     = (done ++ [line]) ++ chunks (pending f'))
      by by rewrite <- app_assoc.
    set (p := decode line) in *.
    destruct (os_open p OPEN_MODE) as [|e] eqn:Hopen.
    + destruct (os_watch (first_fd + 1
                          + Z.of_nat (length (ps0 ++ (decode <$> done)))) p)
        as [|e] eqn:Hwatch.
      * rewrite register_path_armed by done. cbn [bind].
        apply fgetln_shrinks in Hget. rewrite Hdone, Hlines.
        apply IH. lia.
      * rewrite (register_path_watch_fails _ _ e) by done. cbn [bind consumed].
        exists (done ++ [line]), (decode <$> done). rewrite <- Hdone.
        split; [by split|]. split; [by rewrite Hlines|]. split; [done|].
        rewrite fmap_app. by apply prefix_app_r.
    + rewrite (register_path_open_fails _ _ e) by done. cbn [bind consumed].
      exists (done ++ [line]), (decode <$> done). rewrite <- Hdone.
      split; [by split|]. split; [by rewrite Hlines|]. split; [done|].
      rewrite fmap_app. by apply prefix_app_r.
  - rewrite <- (fgetln_none _ _ Hget). destruct (feof f').
    + by exists done, f'.
    + exists done, (decode <$> done).
      destruct (read_error f'); (split; [by split|]); done.
Qed.

Lemma register_paths_consumed (avail eof : Z) (ps0 done : list string)
    (f : FILE) (w : world) :
  consumed ps0 (done ++ chunks (pending f))
    (register_paths avail eof (at_paths (ps0 ++ (decode <$> done)) f w)).
Proof. unfold register_paths. apply loop_lines. cbn. lia. Qed.

Lemma run_consumed (ps0 lines : list string) (ws : list wakeup) :
  forall o, consumed ps0 lines o -> consumed ps0 lines (run ws o).
Proof.
  induction ws as [|wk ws IH]; intros o Ho; [done|].
  destruct o as [w|s w|]; cbn [run]; [|done..].
  destruct Ho as (done & f & -> & ->). apply IH.
  apply loop_iteration_at.
  - intros w'. by exists done, f.
  - intros s w'. exists done, (decode <$> done).
    split; [by split|]. done.
  - intros avail eof w'. apply register_paths_consumed.
Qed.

Lemma watcher_loop_lines (inp : FILE) (garbage : kevent) (ws : list wakeup) :
  match watcher_loop inp garbage ws with
  | Running w =>
      exists done f,
        w = at_paths (decode <$> done) f w
        /\ chunks (pending inp) = done ++ chunks (pending f)
  | Exited _ w =>
      exists done,
        registry_is w (decode <$> done)
        /\ chunks (pending inp) = done ++ chunks (pending (input w))
  | Stuck => False
  end.
Proof.
  unfold watcher_loop, watcher_loop_init.
  destruct os_kqueue as [|e] eqn:Hkq; [destruct os_watch_input as [|e] eqn:Hin|].
  - assert (Hc : consumed [] (chunks (pending inp))
                   (Running (set_kq_changes
                      (kq_changes (set_next_fd (next_fd (boot inp garbage) + 1)
                                     (boot inp garbage))
                       ++ [EV_SET in_fno EVFILT_READ (Z.lor EV_ADD EV_CLEAR)
                             0 0 None])
                      (set_next_fd (next_fd (boot inp garbage) + 1)
                         (boot inp garbage))))).
    { exists [], inp. split; [|done].
      unfold at_paths, at_state, boot; cbn. by rewrite Z.add_0_r. }
    apply (run_consumed _ _ ws) in Hc.
    destruct (run ws _) as [w|s w|]; cbn [consumed] in Hc; [| |done].
    + destruct Hc as (done & f & Hw & Hl). by exists done, f.
    + destruct Hc as (done & arm & Hr & Hl & _). by exists done.
  - unfold err. rewrite run_exited. exists []. split; [by split|done].
  - unfold err. rewrite run_exited. exists []. split; [by split|done].
Qed.

Lemma strncpy_c_str (a b : string) :
  strncpy (a +:+ b) (String.length a) = c_str a.
Proof.
  induction a as [|c a IH]; [by destruct b|].
  rewrite sapp_cons. cbn [String.length strncpy c_str].
  destruct (Ascii.eqb c NUL); [done|]. by rewrite IH.
Qed.

Lemma chomp_line (l : string) :
  Ascii.eqb (last_char l) NL = true -> l = chomp l +:+ nl.
Proof.
  induction l as [|c l IH]; [done|].
  destruct l as [|d l]; cbn [last_char chomp].
  - intros Hc. rewrite Hc. by apply Ascii.eqb_eq in Hc as ->.
  - intros Hl. rewrite sapp_cons. f_equal. by apply IH.
Qed.

Lemma chomp_whole (l : string) :
  Ascii.eqb (last_char l) NL = false -> chomp l = l.
Proof.
  induction l as [|c l IH]; [done|].
  destruct l as [|d l]; cbn [last_char chomp].
  - by intros ->.
  - intros Hl. f_equal. by apply IH.
Qed.

(** Lines 130 to 136 leave the line without its newline, up to its
    first NUL, when the line is short enough for the [int]. *)
Lemma decode_path_of_line (l : string) :
  strlen l < 2 ^ 31 - 1 -> decode l = path_of_line l.
Proof.
  intros Hshort. unfold decode, pathlen_of, path_of_line.
  pose proof (strlen_nonneg l) as Hl.
  destruct (Ascii.eqb (last_char l) NL) eqn:Hlast.
  - rewrite (chomp_line l Hlast) at 1 2.
    pose proof (chomp_line l Hlast) as Hc.
    assert (Hlen : strlen l = strlen (chomp l) + 1).
    { rewrite Hc at 1. by rewrite strlen_app. }
    pose proof (strlen_nonneg (chomp l)).
    rewrite strlen_app. change (strlen nl) with 1.
    rewrite int_of_small by lia.
    replace (strlen (chomp l) + 1 + -1) with (strlen (chomp l)) by lia.
    unfold strlen. rewrite Nat2Z.id. apply strncpy_c_str.
  - rewrite (chomp_whole l Hlast), Z.add_0_r, int_of_small by lia.
    unfold strlen. rewrite Nat2Z.id.
    rewrite <- (sapp_nil_r l) at 1. apply strncpy_c_str.
Qed.

Lemma chunks_chomp (s : string) :
  Forall (fun l => no_char NL (chomp l) = true) (chunks s).
Proof.
  induction s as [|c s IH]; cbn [chunks]; [done|].
  destruct (Ascii.eqb c NL) eqn:Hc.
  - apply Forall_cons_2; [|done]. cbn [chomp]. by rewrite Hc.
  - destruct (chunks s) as [|l ls].
    + apply Forall_cons_2; [|done]. cbn [chomp no_char]. by rewrite Hc; cbn; rewrite Hc.
    + apply Forall_cons_1 in IH as [Hl Hls]. apply Forall_cons_2; [|done].
      destruct l as [|d l]; cbn [chomp]; [by rewrite Hc; cbn; rewrite Hc|].
      cbn [no_char]. rewrite Hc. done.
Qed.

Lemma c_str_no_char (ch : ascii) (s : string) :
  no_char ch s = true -> no_char ch (c_str s) = true.
Proof.
  induction s as [|c s IH]; [done|]. cbn [no_char c_str].
  intros [Hc Hs]%andb_prop. destruct (Ascii.eqb c NUL); [done|].
  cbn [no_char]. by rewrite Hc, IH.
Qed.

Lemma c_str_no_nul (s : string) : no_char NUL (c_str s) = true.
Proof.
  induction s as [|c s IH]; [done|]. cbn [c_str].
  destruct (Ascii.eqb c NUL) eqn:Hc; [done|]. cbn [no_char]. by rewrite Hc.
Qed.

Lemma short_lines_decode (s : string) (done rest : list string) :
  short_lines s = true -> chunks s = done ++ rest ->
  decode <$> done = path_of_line <$> done.
Proof.
  intros Hshort Hs. apply Forall_fmap_ext, List.Forall_forall.
  intros l Hl. apply decode_path_of_line.
  unfold short_lines in Hshort. rewrite forallb_forall in Hshort.
  apply Z.ltb_lt, Hshort. rewrite Hs. apply in_or_app. by left.
Qed.

(** X7. The registry holds the paths of the lines read, one per line
    and in their order.  For a control stream whose lines are shorter
    than 2^31 - 1 bytes, at every state the program reaches the lines of
    the stream are those consumed so far followed by those still pending,
    and the registry holds, for each consumed line, the line without its
    newline, cut at its first NUL: no line is skipped, split, merged or
    registered twice. *)
Theorem registry_holds_lines_read (inp : FILE) (garbage : kevent)
    (ws : list wakeup) :
  short_lines (pending inp) = true ->
  match watcher_loop inp garbage ws with
  | Running w =>
      exists done,
        chunks (pending inp) = done ++ chunks (pending (input w))
        /\ iterate w = Some (path_of_line <$> done)
        /\ watches w = path_of_line <$> done
  | Exited _ w =>
      exists done,
        chunks (pending inp) = done ++ chunks (pending (input w))
        /\ iterate w = Some (path_of_line <$> done)
  | Stuck => False
  end.
Proof.
  intros Hshort. pose proof (watcher_loop_lines inp garbage ws) as Hc.
  destruct (watcher_loop inp garbage ws) as [w|s w|].
  - destruct Hc as (done & f & Hw & Hl). exists done.
    rewrite <- (short_lines_decode _ _ _ Hshort Hl). rewrite Hw.
    split; [done|]. split; [apply iterate_registry; by split|].
    apply watches_at_state.
  - destruct Hc as (done & Hr & Hl). exists done.
    rewrite <- (short_lines_decode _ _ _ Hshort Hl).
    split; [done|]. by apply iterate_registry.
  - done.
Qed.

(** X8. A registered path holds no newline and no NUL.  For a control
    stream whose lines are shorter than 2^31 - 1 bytes, every path of the
    registry, in every state the program reaches, is free of both
    bytes. *)
Theorem registered_paths_clean (inp : FILE) (garbage : kevent)
    (ws : list wakeup) :
  short_lines (pending inp) = true ->
  match watcher_loop inp garbage ws with
  | Running w | Exited _ w =>
      exists ps, iterate w = Some ps /\ Forall (fun p => clean p = true) ps
  | Stuck => False
  end.
Proof.
  intros Hshort. pose proof (watcher_loop_lines inp garbage ws) as Hc.
  assert (Hclean : forall done rest,
            chunks (pending inp) = done ++ rest ->
            Forall (fun p => clean p = true) (decode <$> done)).
  { intros done rest Hl. rewrite (short_lines_decode _ _ _ Hshort Hl).
    pose proof (chunks_chomp (pending inp)) as Hch. rewrite Hl in Hch.
    apply Forall_app in Hch as [Hch _]. apply Forall_fmap.
    eapply Forall_impl; [exact Hch|]. intros l Hnl. cbn.
    unfold clean, path_of_line.
    by rewrite c_str_no_char, c_str_no_nul. }
  destruct (watcher_loop inp garbage ws) as [w|s w|].
  - destruct Hc as (done & f & Hw & Hl). exists (decode <$> done).
    split; [|by eapply Hclean]. rewrite Hw. apply iterate_registry. by split.
  - destruct Hc as (done & Hr & Hl). exists (decode <$> done).
    split; [by apply iterate_registry|by eapply Hclean].
  - done.
Qed.

Lemma imap_vnode_app (ps qs : list string) :
  exists regs, imap vnode_change (ps ++ qs) = imap vnode_change ps ++ regs.
Proof. rewrite imap_app. by eexists. Qed.

(** X9. Nothing is ever unregistered.  Once the loop waits with some
    paths in the registry and their registrations on the kqueue, every
    later state of the run, waiting or exited, has the same paths at the
    front of the registry and the same registrations at the front of the
    kqueue: the program removes no path, drops no watch and reorders
    nothing. *)
Theorem nothing_unregistered (inp : FILE) (garbage : kevent)
    (ws1 ws2 : list wakeup) (w1 : world) :
  watcher_loop inp garbage ws1 = Running w1 ->
  match watcher_loop inp garbage (ws1 ++ ws2) with
  | Running w2 | Exited _ w2 =>
      exists ps qs regs,
        iterate w1 = Some ps
        /\ iterate w2 = Some (ps ++ qs)
        /\ kq_changes w2 = kq_changes w1 ++ regs
  | Stuck => False
  end.
Proof.
  intros Hrun1. pose proof (watcher_loop_in_step inp garbage ws1) as Hs.
  unfold watcher_loop in *. rewrite run_app, Hrun1. rewrite Hrun1 in Hs.
  destruct Hs as (ps & f & Hw1).
  assert (Hc : consumed ps (chunks (pending f)) (Running w1)).
  { exists [], f. cbn [fmap list_fmap]. by rewrite app_nil_r. }
  apply (run_consumed _ _ ws2) in Hc.
  assert (Hk1 : kq_changes w1 = input_change :: imap vnode_change ps)
    by by rewrite Hw1.
  assert (Hi1 : iterate w1 = Some ps).
  { rewrite Hw1. apply iterate_registry. by split. }
  destruct (run ws2 (Running w1)) as [w2|s w2|]; cbn [consumed] in Hc.
  - destruct Hc as (done & f' & Hw2 & _).
    destruct (imap_vnode_app ps (decode <$> done)) as [regs Hregs].
    exists ps, (decode <$> done), regs. split; [done|].
    rewrite Hw2, Hk1. split; [apply iterate_registry; by split|].
    cbn [kq_changes at_paths at_state]. by rewrite Hregs.
  - destruct Hc as (done & arm & Hr & _ & Hk & _).
    destruct (imap_vnode_app ps arm) as [regs Hregs].
    exists ps, (decode <$> done), regs. split; [done|].
    split; [by apply iterate_registry|]. by rewrite Hk, Hk1, Hregs.
  - done.
Qed.

End Lines.

(** ** The command line *)

Section Main.
Context {H : SysHeaders} {E : OS}.

Lemma print_usage_output (w : world) :
  output (print_usage Stdout w) = output w +:+ usage_text
  /\ input (print_usage Stdout w) = input w
  /\ kq_changes (print_usage Stdout w) = kq_changes w
  /\ heap (print_usage Stdout w) = heap w.
Proof.
  unfold print_usage, usage_text, fprintf. cbn.
  by rewrite !sapp_assoc.
Qed.

Lemma parse_options_cases (results : list getopt_result) :
  forall w,
    if asks_usage results
    then exists w',
           parse_options results w = Exited 0 (print_usage Stdout w')
           /\ output w' = output w /\ input w' = input w
           /\ kq_changes w' = kq_changes w /\ heap w' = heap w
    else parse_options results w = Running w.
Proof.
  induction results as [|r rest IH]; intros w; [done|].
  unfold asks_usage in *. cbn [List.find parse_options getopt_long].
  destruct (opt_ret r =? -1) eqn:H1.
  { pose proof H1 as Hr. apply Z.eqb_eq in Hr.
    cbn [orb]. rewrite H1, Hr. done. }
  destruct (opt_ret r =? 63) eqn:H2; cbn [orb negb]; rewrite ?H1; cbn [negb].
  { eexists. split; [done|]. done. }
  destruct (opt_ret r =? 104) eqn:H3; cbn [orb negb]; rewrite ?H1; cbn [negb].
  { eexists. split; [done|]. done. }
  apply IH.
Qed.

(** X10. Asking for help, or giving an option the program does not know,
    prints the usage text on the standard output and exits with status 0
    before anything is read from the control stream or registered with a
    kqueue; any other command line changes nothing, and the program is the
    watcher loop. *)
Theorem usage_or_watch (results : list getopt_result) (inp : FILE)
    (garbage : kevent) (ws : list wakeup) :
  if asks_usage results
  then exists w,
         main results inp garbage ws = Exited 0 w
         /\ output w = usage_text /\ input w = inp
         /\ kq_changes w = [] /\ heap w = []
  else main results inp garbage ws = watcher_loop inp garbage ws.
Proof.
  pose proof (parse_options_cases results (boot inp garbage)) as Hp.
  unfold main. destruct (asks_usage results).
  - destruct Hp as (w' & -> & Ho & Hi & Hk & Hh). cbn [bind].
    exists (print_usage Stdout w'). split; [done|].
    destruct (print_usage_output w') as (-> & -> & -> & ->).
    by rewrite Ho, Hi, Hk, Hh.
  - by rewrite Hp.
Qed.

(** X11. Exit status 0 means usage.  With the error codes of [open]
    between 1 and 255, the process exits with status 0 exactly when the
    command line asked for the usage text; every exit of the watcher
    itself is a failure. *)
Theorem exit_zero_iff_usage (results : list getopt_result) (inp : FILE)
    (garbage : kevent) (ws : list wakeup) (s : Z) (w : world) :
  (forall p e, os_open p OPEN_MODE = SysFail e -> 0 < e < 256) ->
  main results inp garbage ws = Exited s w ->
  exit_status s = 0 <-> asks_usage results = true.
Proof.
  intros Herrno. unfold main.
  pose proof (parse_options_cases results (boot inp garbage)) as Hp.
  destruct (asks_usage results).
  - destruct Hp as (w' & -> & _). cbn [bind]. by intros [= <- _].
  - rewrite Hp. cbn [bind]. fold (watcher_loop inp garbage ws). intros Hrun.
    pose proof (watcher_loop_trace inp garbage ws) as Ht.
    rewrite Hrun in Ht. destruct Ht as ([->|(p & e & Hopen & ->)] & _).
    + done.
    + split; [|done]. intros Hz.
      by destruct (exit_status_errno e (Herrno p e Hopen)).
Qed.

End Main.

(** ** Edges of the loop *)

Section Edges.
Context {H : SysHeaders} {E : OS}.

Lemma loop_iteration_event (ev : kevent) (w : world) :
  is_input_event ev = false ->
  loop_iteration (Ready ev) w
  = Running (set_output (output w +:+ report_line (kev_udata ev) (kev_fflags ev))
               (set_k_event ev (set_signal_caught 0 w))).
Proof.
  intros Hev. unfold loop_iteration. cbn [kevent_wait bind Z.eqb].
  change (truthy (signal_caught (set_k_event ev (set_signal_caught 0 w))))
    with false.
  cbn iota. unfold dispatch. cbn [k_event set_k_event].
  unfold is_input_event in Hev. rewrite Hev. by rewrite handle_event_line.
Qed.

Lemma loop_iteration_bare_eintr (w : world) :
  is_input_event (k_event w) = false ->
  loop_iteration (WaitFailed EINTR) w
  = Running (set_output
               (output w +:+ report_line (kev_udata (k_event w))
                               (kev_fflags (k_event w)))
               (set_errno EINTR (set_signal_caught 0 w))).
Proof.
  intros Hev. unfold loop_iteration. cbn [kevent_wait].
  change (-1 =? -1) with true. cbn iota.
  change (errno_ (set_errno EINTR (set_signal_caught 0 w))) with EINTR.
  rewrite Z.eqb_refl. cbn [negb bind].
  change (truthy (signal_caught (set_errno EINTR (set_signal_caught 0 w))))
    with false.
  cbn iota. unfold dispatch.
  change (k_event (set_errno EINTR (set_signal_caught 0 w))) with (k_event w).
  unfold is_input_event in Hev. rewrite Hev. by rewrite handle_event_line.
Qed.

(** X12. A wait that fails with [EINTR] without the handler having run
    reports the previous event a second time.  The loop does not leave
    on [EINTR], the handler's flag is clear, and [k_event] still holds
    the event of the turn before: after a change event, such a wait
    appends the same report line again. *)
Theorem bare_eintr_repeats_event (inp : FILE) (garbage : kevent)
    (ws : list wakeup) (ev : kevent) (w : world) :
  is_input_event ev = false ->
  watcher_loop inp garbage (ws ++ [Ready ev]) = Running w ->
  exists w',
    watcher_loop inp garbage (ws ++ [Ready ev; WaitFailed EINTR]) = Running w'
    /\ output w' = output w +:+ report_line (kev_udata ev) (kev_fflags ev).
Proof.
  intros Hev. unfold watcher_loop. rewrite !run_app.
  destruct (run ws (watcher_loop_init (boot inp garbage))) as [w0|s w0|];
    cbn [run]; [|done..].
  rewrite loop_iteration_event by done. intros [= <-].
  rewrite loop_iteration_bare_eintr by done.
  eexists. split; [done|]. done.
Qed.

(** X13. An input event on a control stream that is read to its end
    registers nothing.  Whatever byte count and flags the event carries,
    when nothing is pending on the stream and no read error is, the turn
    returns to the wait with the registry, the kqueue and both output
    streams as they were. *)
Theorem drained_stream_is_inert (inp : FILE) (garbage : kevent)
    (ws : list wakeup) (n flags : Z) (w : world) :
  watcher_loop inp garbage ws = Running w ->
  pending (input w) = "" -> read_error (input w) = None ->
  exists w',
    watcher_loop inp garbage (ws ++ [Ready (input_event n flags)]) = Running w'
    /\ iterate w' = iterate w /\ kq_changes w' = kq_changes w
    /\ output w' = output w /\ stderr w' = stderr w
    /\ pending (input w') = "".
Proof.
  intros Hrun Hpend Hre.
  pose proof (watcher_loop_in_step inp garbage ws) as Hs.
  unfold watcher_loop in *. rewrite run_app, Hrun. rewrite Hrun in Hs.
  destruct Hs as (ps & f & Hw). rewrite Hw in Hpend, Hre.
  cbn [input at_paths at_state] in Hpend, Hre.
  destruct f as [pend re ef]. cbn [pending read_error] in Hpend, Hre.
  subst pend re. cbn [run]. rewrite Hw, loop_iteration_input.
  unfold register_paths, at_paths. cbn [input at_state pending String.length].
  rewrite loop_turn.
  assert (Hit : forall f' w0, iterate (at_state ps ps f' w0) = Some ps).
  { intros f' w0. apply iterate_registry. by split. }
  destruct (loop_guard _ _ _ _).
  - cbn [fgetln split_line pending read_error feof eof_flag].
    eexists. split; [done|]. by rewrite !Hit.
  - eexists. split; [done|]. by rewrite !Hit.
Qed.

Lemma no_char_app (ch : ascii) (a b : string) :
  no_char ch (a +:+ b) = no_char ch a && no_char ch b.
Proof.
  induction a as [|c a IH]; [done|].
  rewrite sapp_cons. cbn [no_char]. by rewrite IH, andb_assoc.
Qed.

Lemma flag_walk_no_char (ch : ascii) (tbl : list flag_desc) (flags : Z) :
  Forall (fun d => no_char ch (name d) = true) tbl ->
  no_char ch "," = true ->
  forall flagged buf,
    no_char ch buf = true ->
    no_char ch (flag_walk tbl flags flagged buf) = true.
Proof.
  intros Htbl Hcomma.
  induction Htbl as [|d tbl Hd _ IH]; intros flagged buf Hbuf;
    cbn [flag_walk]; [done|].
  destruct (truthy (flag d)); [|done].
  destruct (truthy (Z.land (flag d) flags)); [|by apply IH].
  apply IH. unfold strcat.
  destruct flagged; by rewrite !no_char_app, ?Hbuf, ?Hcomma, ?Hd.
Qed.

Lemma render_one_line (m : Z) : no_char NL (render m) = true.
Proof.
  unfold render, change_flags_to_msg.
  apply flag_walk_no_char; [|done..].
  unfold flag_descs. by repeat apply Forall_cons_2.
Qed.

(** X14. A report is one line.  For a path without a newline and any
    bitmask, the text [handle_event] writes holds exactly one newline,
    its last byte: a reader that splits the report stream at newlines
    gets one piece per change event. *)
Theorem report_is_one_line (p : string) (m : Z) :
  no_char NL p = true ->
  chunks (report_line (Some p) m) = [report_line (Some p) m]
  /\ last_char (report_line (Some p) m) = NL.
Proof.
  intros Hp. unfold report_line.
  assert (Hbody : no_char NL (p +:+ tab +:+ render (int_of_u_int m)) = true).
  { by rewrite !no_char_app, Hp, render_one_line. }
  assert (Hshape : p +:+ tab +:+ render (int_of_u_int m) +:+ nl
                   = (p +:+ tab +:+ render (int_of_u_int m)) +:+ nl +:+ "").
  { by rewrite !sapp_assoc, sapp_nil_r. }
  split.
  - rewrite Hshape at 1.
    rewrite (chunks_split _ _ _ (split_line_line _ "" Hbody)).
    cbn [chunks]. by rewrite !sapp_assoc.
  - rewrite Hshape, sapp_nil_r. apply last_char_line.
Qed.

End Edges.

(** ** Sample runs *)

Section FurtherSamples.
Local Existing Instance bsd_headers.
Local Existing Instance sample_os.



Lemma bare_eintr_is_not_fatal :
  exists w w',
    watcher_loop (fresh_stream (feed ["/tmp/a"])) no_event
      [Ready (input_event 7 0)] = Running w
    /\ trigger_handled (WaitFailed EINTR) = false
    /\ wait_error (WaitFailed EINTR) = Some EINTR
    /\ loop_iteration (WaitFailed EINTR) w = Running w'
    /\ signal_caught w' = 0
    /\ stderr w' = "".
Proof.
  eexists _, _. split; [vm_compute; reflexivity|].
  split; [reflexivity|]. split; [reflexivity|].
  split; [vm_compute; reflexivity|]. split; reflexivity.
Qed.

Lemma reports_follow_events_witness :
  let ws := [Ready (input_event 7 0);
             Ready (kernel_event (vnode_change 0 "/tmp/a") 2);
             Interrupted;
             Caught (Ready (kernel_event (vnode_change 0 "/tmp/a") 4));
             Ready (kernel_event (vnode_change 0 "/tmp/a") 1)] in
  no_bare_eintr ws = true
  /\ match watcher_loop (fresh_stream (feed ["/tmp/a"])) no_event ws with
     | Running w => output w = reports_of ws
     | Exited _ w => exists k, output w = reports_of (take k ws)
     | Stuck => False
     end.
Proof.
  split; [reflexivity|].
  apply (@reports_follow_events bsd_headers sample_os). reflexivity.
Defined.

Lemma registry_holds_lines_read_witness :
  let s := "/tmp/a" +:+ nl +:+ "/tmp/b" in
  short_lines s = true
  /\ match watcher_loop (fresh_stream s) no_event [Ready (input_event 7 0)] with
     | Running w =>
         exists done,
           chunks s = done ++ chunks (pending (input w))
           /\ iterate w = Some (path_of_line <$> done)
           /\ watches w = path_of_line <$> done
     | Exited _ w =>
         exists done,
           chunks s = done ++ chunks (pending (input w))
           /\ iterate w = Some (path_of_line <$> done)
     | Stuck => False
     end.
Proof.
  split; [reflexivity|].
  apply (@registry_holds_lines_read bsd_headers sample_os
           (fresh_stream ("/tmp/a" +:+ nl +:+ "/tmp/b"))).
  reflexivity.
Defined.

Lemma registered_paths_clean_witness :
  let s := "/tmp/a" +:+ nl +:+ "/tmp/b" in
  short_lines s = true
  /\ match watcher_loop (fresh_stream s) no_event [Ready (input_event 14 1)] with
     | Running w | Exited _ w =>
         exists ps, iterate w = Some ps /\ Forall (fun p => clean p = true) ps
     | Stuck => False
     end.
Proof.
  split; [reflexivity|].
  apply (@registered_paths_clean bsd_headers sample_os
           (fresh_stream ("/tmp/a" +:+ nl +:+ "/tmp/b"))).
  reflexivity.
Defined.

Lemma nothing_unregistered_witness :
  let inp := fresh_stream (feed ["/tmp/a"; "/tmp/b"]) in
  exists w1,
    watcher_loop inp no_event [Ready (input_event 7 0)] = Running w1
    /\ match watcher_loop inp no_event
               ([Ready (input_event 7 0)] ++ [Ready (input_event 7 0)]) with
       | Running w2 | Exited _ w2 =>
           exists ps qs regs,
             iterate w1 = Some ps
             /\ iterate w2 = Some (ps ++ qs)
             /\ kq_changes w2 = kq_changes w1 ++ regs
       | Stuck => False
       end.
Proof.
  eexists. split; [vm_compute; reflexivity|].
  apply (@nothing_unregistered bsd_headers sample_os). by vm_compute.
Defined.

Lemma exit_zero_iff_usage_witness :
  let inp := fresh_stream (feed ["/nonexistent"]) in
  (forall p e, os_open p OPEN_MODE = SysFail e -> 0 < e < 256)
  /\ (exists w, main [] inp no_event [Ready (input_event 13 0)] = Exited 2 w)
  /\ (exit_status 2 = 0 <-> asks_usage [] = true).
Proof.
  assert (Herrno : forall p e, os_open p OPEN_MODE = SysFail e -> 0 < e < 256).
  { intros p e. cbn. destruct (String.prefix "/tmp/" p); [done|].
    intros [= <-]. lia. }
  split; [exact Herrno|]. split; [eexists; vm_compute; reflexivity|].
  eapply (@exit_zero_iff_usage bsd_headers sample_os []
            (fresh_stream (feed ["/nonexistent"])) no_event
            [Ready (input_event 13 0)] 2);
    [exact Herrno|vm_compute; reflexivity].
Defined.

Lemma bare_eintr_repeats_event_witness :
  let ev := kernel_event (vnode_change 0 "/tmp/a") 2 in
  exists w,
    is_input_event ev = false
    /\ watcher_loop (fresh_stream "") no_event ([] ++ [Ready ev]) = Running w
    /\ exists w',
         watcher_loop (fresh_stream "") no_event
           ([] ++ [Ready ev; WaitFailed EINTR]) = Running w'
         /\ output w'
            = output w +:+ report_line (kev_udata ev) (kev_fflags ev).
Proof.
  eexists. split; [reflexivity|]. split; [vm_compute; reflexivity|].
  apply (@bare_eintr_repeats_event bsd_headers sample_os (fresh_stream "")
           no_event []); [reflexivity|vm_compute; reflexivity].
Defined.

Lemma drained_stream_is_inert_witness :
  let inp := fresh_stream (feed ["/tmp/a"]) in
  exists w,
    watcher_loop inp no_event [Ready (input_event 7 0)] = Running w
    /\ pending (input w) = "" /\ read_error (input w) = None
    /\ exists w',
         watcher_loop inp no_event
           ([Ready (input_event 7 0)] ++ [Ready (input_event 5 0)]) = Running w'
         /\ iterate w' = iterate w /\ kq_changes w' = kq_changes w
         /\ output w' = output w /\ stderr w' = stderr w
         /\ pending (input w') = "".
Proof.
  eexists. split; [vm_compute; reflexivity|].
  split; [reflexivity|]. split; [reflexivity|].
  apply (@drained_stream_is_inert bsd_headers sample_os
           (fresh_stream (feed ["/tmp/a"])) no_event
           [Ready (input_event 7 0)] 5 0);
    [vm_compute; reflexivity|reflexivity|reflexivity].
Defined.

Lemma report_is_one_line_witness :
  no_char NL "/tmp/a" = true
  /\ chunks (report_line (Some "/tmp/a") 2) = [report_line (Some "/tmp/a") 2]
  /\ last_char (report_line (Some "/tmp/a") 2) = NL.
Proof.
  split; [reflexivity|].
  apply (@report_is_one_line bsd_headers "/tmp/a" 2). reflexivity.
Defined.

End FurtherSamples.
